(** * Queue and pipeline orchestration of the image-diagnosis consumer

    A shallow embedding of the durable two-stage job queue
    ([interfaces/queue/__init__.py], [interfaces/queue/mysql.py]), of the
    ingestion entry point ([enqueue_report.py]) with the database and
    storage calls it makes, and of the severity bucketing of the
    segmentation wrapper ([core/processing/segmentation.py]).

    SQL statements are interpreted over tables kept as row lists; every
    connection has a committed state (what other sessions read under READ
    COMMITTED, and what survives the death of the worker) and a working
    state (what the session itself sees inside its open transaction). *)

From Stdlib Require Import ZArith QArith Qpower Floats String Lia.
From stdpp Require Import base tactics option list sorting gmap strings.

Local Open Scope Z_scope.

(** ** Enumerations and exceptions *)

(** [models/processing/__init__.py] *)
Inductive ProcessingModelType := CLASSIFICATION | SEGMENTATION.

(** [models/validation/__init__.py] *)
Inductive ValidationModelType : Set := COFFEE_LEAF_OCC.

(** [models/__init__.py]: [ModelCategory] and the union
    [ValidationModelType | ProcessingModelType] of [Model.type].  Python
    does not enforce the narrower annotation [ProcessingModelType] of the
    queue methods, whose [case _] arms are therefore kept. *)
Inductive ModelCategory := VALIDATION | PROCESSING.

Inductive ModelType :=
| Processing (t : ProcessingModelType)
| Validation (t : ValidationModelType).

Record Model := mkModel {
  category : ModelCategory;
  type : ModelType;
  subtype : string;
  module : string;
  class_name : string
}.

#[global] Instance ProcessingModelType_eq_dec : EqDecision ProcessingModelType.
Proof. solve_decision. Defined.
#[global] Instance ValidationModelType_eq_dec : EqDecision ValidationModelType.
Proof. solve_decision. Defined.
#[global] Instance ModelType_eq_dec : EqDecision ModelType.
Proof. solve_decision. Defined.

(** The exceptions the modelled code raises. *)
Inductive exn :=
| ValueError (msg : string)
| TypeError (msg : string)
| KeyError (key : Z)
| UnboundLocalError (name : string).

(** What an f-string puts in place of [{model_type}]: the members are
    plain [Enum] members, whose [format] is their [str], the class name
    and the member name joined by a dot. *)
Definition str_ProcessingModelType (t : ProcessingModelType) : string :=
  match t with
  | CLASSIFICATION => "ProcessingModelType.CLASSIFICATION"
  | SEGMENTATION => "ProcessingModelType.SEGMENTATION"
  end.

Definition str_ValidationModelType (t : ValidationModelType) : string :=
  match t with
  | COFFEE_LEAF_OCC => "ValidationModelType.COFFEE_LEAF_OCC"
  end.

Definition str_ModelType (model_type : ModelType) : string :=
  match model_type with
  | Processing t => str_ProcessingModelType t
  | Validation t => str_ValidationModelType t
  end.

Definition bytes := list Byte.byte.

(** ** Tensor arithmetic used by the segmentation wrapper

    A [torch.float32] value is an IEEE 754 binary32 value, kept as a
    [spec_float] of precision 24 and maximal exponent 128. *)
Module Float32.

Definition prec : Z := 24.
Definition emax : Z := 128.

(** A Python [float] operand of an operation on a [float32] tensor is
    converted to [float32], rounding to nearest, ties to even. *)
Definition of_float (x : float) : spec_float :=
  match Prim2SF x with
  | S754_finite s m e => binary_round prec emax s m e
  | v => v
  end.

(** [Tensor.float()] on an [int64] tensor *)
Definition of_int64 (n : Z) : spec_float := binary_normalize prec emax n 0 false.

(** [/] on two [float32] tensors *)
Definition div : spec_float -> spec_float -> spec_float := SFdiv prec emax.

(** [float(tensor)]: every binary32 value is a binary64 value. *)
Definition to_float (x : spec_float) : float := SF2Prim x.

(** The values of the format that are numbers: the zeros and the finite
    values whose mantissa and exponent are those of a binary32 value. *)
Definition is_number (x : spec_float) : bool :=
  match x with
  | S754_zero _ => true
  | S754_finite _ m e => bounded prec emax m e
  | _ => false
  end.

End Float32.

(** [+] on two [int64] tensors *)
Module Int64.

Definition wrap (n : Z) : Z := (n + 2 ^ 63) mod 2 ^ 64 - 2 ^ 63.

Definition add (a b : Z) : Z := wrap (a + b).

End Int64.

(** The real number a floating-point value stands for (0 for what is not
    a finite number). *)
Definition real_value (x : spec_float) : Q :=
  match x with
  | S754_finite s m e => ((if s then -1 else 1) * inject_Z (Z.pos m) * 2 ^ e)%Q
  | _ => 0%Q
  end.

(** ** Severity bucketing ([core/processing/segmentation.py])

    The body of [Segmentation._ratio_to_severity] is given for the two
    kinds of argument it can be run on.  A chained comparison
    [a <= x <= b] is [a <= x and x <= b].

    In [_ratio_to_severity] the argument is a Python [float], i.e. an IEEE
    754 binary64 value, as the annotation has it; the literals are the
    binary64 values nearest to the decimals.

    In [Tensor._ratio_to_severity] the argument is what
    [_get_stress_ratio_and_severity] passes: [typing.cast] returns its
    argument, the quotient of two [float32] tensors, as it is, so every
    comparison is one of a [float32] tensor of no dimension with a Python
    scalar, made in [float32] with the literal converted to it
    ([0.001 <= t], which [float] does not implement, is [t >= 0.001]). *)
Module Segmentation.

#[local] Set Warnings "-inexact-float".

Definition _ratio_to_severity (stress_ratio : float) : Z :=
  if (stress_ratio <? 0.001)%float then 0
  else if (0.001 <=? stress_ratio)%float && (stress_ratio <=? 0.05)%float then 1
  else if (0.05 <? stress_ratio)%float && (stress_ratio <=? 0.1)%float then 2
  else if (0.1 <? stress_ratio)%float && (stress_ratio <=? 0.15)%float then 3
  else if (0.15 <? stress_ratio)%float then 4
  else -1.

Module Tensor.

Definition _ratio_to_severity (stress_ratio : spec_float) : Z :=
  if SFltb stress_ratio (Float32.of_float 0.001) then 0
  else if SFleb (Float32.of_float 0.001) stress_ratio
          && SFleb stress_ratio (Float32.of_float 0.05) then 1
  else if SFltb (Float32.of_float 0.05) stress_ratio
          && SFleb stress_ratio (Float32.of_float 0.1) then 2
  else if SFltb (Float32.of_float 0.1) stress_ratio
          && SFleb stress_ratio (Float32.of_float 0.15) then 3
  else if SFltb (Float32.of_float 0.15) stress_ratio then 4
  else -1.

End Tensor.

(** The model output [output[0, c, ...]] for [c] = 0, 1, 2: the three
    channels, of one shape, each flattened in the same order.  The values
    are [float32] values, held exactly by [float]. *)
Record output := Output {
  channel_0 : list float;
  channel_1 : list float;
  channel_2 : list float
}.

(** [a > b] on two tensors of one shape *)
Definition gt (a b : list float) : list bool :=
  zip_with (fun x y => (y <? x)%float) a b.

(** [torch.count_nonzero] of a boolean tensor, an [int64] *)
Definition count_nonzero (mask : list bool) : Z :=
  Z.of_nat (length (filter Is_true mask)).

Definition _get_stress_ratio_and_severity (o : output) : float * Z :=
  let stress_pixels :=
    count_nonzero (zip_with andb (gt (channel_2 o) (channel_0 o))
                                 (gt (channel_2 o) (channel_1 o))) in
  let leaf_pixels :=
    count_nonzero (zip_with andb (gt (channel_1 o) (channel_0 o))
                                 (gt (channel_1 o) (channel_2 o))) in
  let stress_ratio :=
    Float32.div (Float32.of_int64 stress_pixels)
                (Float32.of_int64 (Int64.add leaf_pixels stress_pixels)) in
  let severity := Tensor._ratio_to_severity stress_ratio in
  (Float32.to_float stress_ratio, severity).

End Segmentation.

(** ** Connections, transactions and the execution monad *)

(** A connection of [mysql.connector] (autocommit off): [committed] is what
    the server has made durable and what other sessions read; [working] is
    the view of the session's open transaction. *)
Record conn (D : Type) := Conn { committed : D; working : D }.
Arguments Conn {D} _ _.
Arguments committed {D} _.
Arguments working {D} _.

(** A connection with no open transaction. *)
Definition idle {D} (d : D) : conn D := Conn d d.

(** What the server does with the state when the client process dies. *)
Class Rollback (S : Type) := rollback : S -> S.

#[global] Instance conn_rollback {D} : Rollback (conn D) :=
  fun c => Conn (committed c) (committed c).

(** How a call ends: it returns, it raises a Python exception (none of the
    modelled code catches one), or the worker process is killed. *)
Inductive outcome (S A : Type) :=
| Returned (a : A) (s : S) (budget : option nat)
| Raised (e : exn) (s : S)
| Killed (s : S).
Arguments Returned {S A} _ _ _.
Arguments Raised {S A} _ _.
Arguments Killed {S A} _.

(** A computation over the state [S].  The budget [Some k] lets the process
    make [k] more round trips to the server before it is killed; [None] is
    a process that is never killed. *)
Definition M (S A : Type) : Type := option nat -> S -> outcome S A.

#[global] Instance M_ret {S} : MRet (M S) :=
  fun A a budget s => Returned a s budget.

#[global] Instance M_bind {S} : MBind (M S) :=
  fun A B f m budget s =>
    match m budget s with
    | Returned a s' budget' => f a budget' s'
    | Raised e s' => Raised e s'
    | Killed s' => Killed s'
    end.

Definition raise {S A} (e : exn) : M S A := fun _ s => Raised e s.

Inductive result (A : Type) := Ok (a : A) | Err (e : exn).
Arguments Ok {A} _.
Arguments Err {A} _.

Definition from_result {S A} (r : result A) : M S A :=
  match r with Ok a => mret a | Err e => raise e end.

(** One round trip to the server. *)
Definition round_trip {S} `{!Rollback S} {A} (f : S -> A * S) : M S A :=
  fun budget s =>
    match budget with
    | Some O => Killed (rollback s)
    | _ => let '(a, s') := f s in Returned a s' (Nat.pred <$> budget)
    end.

Section Cursor.
Context {D : Type}.

(** [cursor.execute] of a statement that writes. *)
Definition execute (stmt : D -> D) : M (conn D) unit :=
  round_trip (fun c => (tt, Conn (committed c) (stmt (working c)))).

(** [cursor.execute] of an INSERT followed by [cursor.lastrowid]. *)
Definition execute_lastrowid (stmt : D -> Z * D) : M (conn D) Z :=
  round_trip (fun c => let '(i, d) := stmt (working c) in (i, Conn (committed c) d)).

(** [cursor.execute] of a SELECT followed by [cursor.fetchone]. *)
Definition fetchone {R} (query : D -> option R) : M (conn D) (option R) :=
  round_trip (fun c => (query (working c), c)).

(** [connection.commit]. *)
Definition commit : M (conn D) unit :=
  round_trip (fun c => (tt, Conn (working c) (working c))).

(** [LOCK TABLES] and [UNLOCK TABLES] commit the open transaction
    implicitly; mutual exclusion between sessions is not modelled. *)
Definition lock_tables : M (conn D) unit := commit.
Definition unlock_tables : M (conn D) unit := commit.
End Cursor.

(** ** Tables *)

(** Modelled from the spec: the table declarations (the CREATE TABLE
    statements) are not part of the source tree.  Every INSERT of the code
    into IMAGE, the report tables and the two queues omits the ID column
    and the dequeues read [ORDER BY ID ASC], so these IDs are generated
    (id assigned at insertion, oldest row by insertion order): a table is
    its rows in insertion order, each with its ID, and the next ID to hand
    out.  Key and NOT NULL constraints are not modelled.  The next ID is
    part of the state of the transaction: a transaction that is rolled
    back gives its IDs back, where the server may leave a gap in the
    numbering. *)
Record table (R : Type) := Table { rows : list (Z * R); auto_increment : Z }.
Arguments Table {R} _ _.
Arguments rows {R} _.
Arguments auto_increment {R} _.

Definition empty_table {R} : table R := Table [] 1.

(** INSERT INTO t (...) VALUES (...) *)
Definition insert_into {R} (t : table R) (r : R) : table R :=
  Table (rows t ++ [(auto_increment t, r)]) (auto_increment t + 1).

(** INSERT INTO t (...) SELECT ... : one generated ID per selected row. *)
Definition insert_select {R} (t : table R) (rs : list R) : table R :=
  foldl insert_into t rs.

(** SELECT ... ORDER BY ID ASC LIMIT 1 *)
Fixpoint order_by_id_limit_1 {R} (l : list (Z * R)) : option (Z * R) :=
  match l with
  | [] => None
  | r :: l' =>
      match order_by_id_limit_1 l' with
      | None => Some r
      | Some m => if m.1 <? r.1 then Some m else Some r
      end
  end.

(** ... WHERE ID = x *)
Definition where_id {R} (x : Z) (l : list (Z * R)) : list (Z * R) :=
  filter (fun p => p.1 = x) l.

(** DELETE FROM t WHERE ID = x *)
Definition delete_where_id {R} (x : Z) (l : list (Z * R)) : list (Z * R) :=
  filter (fun p => p.1 <> x) l.

Definition delete_from {R} (x : Z) (t : table R) : table R :=
  Table (delete_where_id x (rows t)) (auto_increment t).

(** ** The queue interface ([interfaces/queue/__init__.py]) *)
Module Queue.

Record QueueElement := mkQueueElement {
  id : Z;
  model_id : option Z;
  report_id : option Z;
  report_type : ProcessingModelType;
  image : bytes;
  generate_mask : option bool
}.

(** The sequence patterns of [process_report_id]'s [match] statement: a
    capture pattern (a bare name, which matches anything, [None] included),
    the literal [None], and the wildcard. *)
Inductive pattern := capture | literal_None | wildcard.

Definition pattern_matches (p : pattern) (v : option Z) : bool :=
  match p with
  | literal_None => bool_decide (v = None)
  | capture | wildcard => true
  end.

Definition case_ (A : Type) : Type :=
  (pattern * pattern) * (option Z -> option Z -> result A).

Definition case_matches {A} (subject : option Z * option Z) (c : case_ A) : bool :=
  pattern_matches c.1.1 subject.1 && pattern_matches c.1.2 subject.2.

(** A [match] statement runs the first case whose pattern matches. *)
Definition selected_case {A} (subject : option Z * option Z) (cases : list (case_ A))
  : option (nat * case_ A) :=
  list_find (fun c => case_matches subject c = true) cases.

Definition process_report_id_cases : list (case_ (option Z * ProcessingModelType)) :=
  [ ((capture, literal_None),
      fun classification_report_id _ => Ok (classification_report_id, CLASSIFICATION));
    ((literal_None, capture),
      fun _ segmentation_report_id => Ok (segmentation_report_id, SEGMENTATION));
    ((literal_None, literal_None),
      fun _ _ => Err (ValueError "No report ID found"));
    ((wildcard, wildcard),
      fun _ _ => Err (ValueError "Multiple report IDs found")) ].

Definition process_report_id (classification_report_id segmentation_report_id : option Z)
  : result (option Z * ProcessingModelType) :=
  match selected_case (classification_report_id, segmentation_report_id)
          process_report_id_cases with
  | Some (_, (_, arm)) => arm classification_report_id segmentation_report_id
  | None => Err (UnboundLocalError "report_id")
  end.

(** The template methods, over any implementation of the abstract ones. *)
Section Template.
Context {S : Type}.
Variable _enqueue_to_processing_queue :
  Z -> Z -> ModelType -> Z -> bytes -> option bool -> M S unit.
Variable _enqueue_to_validation_queue :
  Z -> Z -> Z -> ModelType -> Z -> bytes -> option bool -> M S unit.

Definition enqueue_to_processing_queue
    (image_id model_id : Z) (model_type : ModelType) (report_id : Z)
    (image : bytes) (generate_mask : option bool) : M S unit :=
  if bool_decide (model_type = Processing SEGMENTATION) && bool_decide (generate_mask = None)
  then raise (ValueError "generate_mask must be provided for segmentation models")
  else _enqueue_to_processing_queue
         image_id model_id model_type report_id image generate_mask.

Definition enqueue_to_validation_queue
    (image_id validation_model_id processing_model_id : Z)
    (processing_model_type : ModelType) (report_id : Z)
    (image : bytes) (generate_mask : option bool) : M S unit :=
  if bool_decide (processing_model_type = Processing SEGMENTATION)
     && bool_decide (generate_mask = None)
  then raise (ValueError "generate_mask must be provided for segmentation models")
  else _enqueue_to_validation_queue
         image_id validation_model_id processing_model_id processing_model_type
         report_id image generate_mask.
End Template.

End Queue.

(** ** The MySQL queue ([interfaces/queue/mysql.py]) *)
Module MySQLQueue.

(** The columns PROCESSING_QUEUE and BUFFER have besides ID. *)
Record job := Job {
  IMAGE_ID : Z;
  MODEL_ID : Z;
  CLASSIFICATION_REPORT_ID : option Z;
  SEGMENTATION_REPORT_ID : option Z;
  IMAGE : bytes;
  GENERATE_MASK : option bool
}.

(** VALIDATION_QUEUE has the same columns and VALIDATION_MODEL_ID. *)
Record validation_job := ValidationJob {
  VALIDATION_MODEL_ID : option Z;
  JOB : job
}.

(** BUFFER rows are inserted with an explicit ID, so BUFFER has no
    generated IDs. *)
Record tables := Tables {
  VALIDATION_QUEUE : table validation_job;
  PROCESSING_QUEUE : table job;
  BUFFER : list (Z * job)
}.

Definition empty : tables := Tables empty_table empty_table [].

Definition state : Type := conn tables.

(** *** The statements *)

Definition INSERT_INTO_VALIDATION_QUEUE (r : validation_job) (d : tables) : tables :=
  Tables (insert_into (VALIDATION_QUEUE d) r) (PROCESSING_QUEUE d) (BUFFER d).

Definition SELECT_FROM_PROCESSING_QUEUE_ORDER_BY_ID_LIMIT_1 (d : tables) : option (Z * job) :=
  order_by_id_limit_1 (rows (PROCESSING_QUEUE d)).

Definition DELETE_FROM_PROCESSING_QUEUE (x : Z) (d : tables) : tables :=
  Tables (VALIDATION_QUEUE d) (delete_from x (PROCESSING_QUEUE d)) (BUFFER d).

Definition SELECT_FROM_VALIDATION_QUEUE_ORDER_BY_ID_LIMIT_1 (d : tables)
  : option (Z * validation_job) :=
  order_by_id_limit_1 (rows (VALIDATION_QUEUE d)).

Definition INSERT_INTO_BUFFER_SELECT_FROM_VALIDATION_QUEUE (x : Z) (d : tables) : tables :=
  Tables (VALIDATION_QUEUE d) (PROCESSING_QUEUE d)
         (BUFFER d ++ ((fun r => (r.1, JOB r.2)) <$> where_id x (rows (VALIDATION_QUEUE d)))).

Definition DELETE_FROM_VALIDATION_QUEUE (x : Z) (d : tables) : tables :=
  Tables (delete_from x (VALIDATION_QUEUE d)) (PROCESSING_QUEUE d) (BUFFER d).

Definition INSERT_INTO_PROCESSING_QUEUE_SELECT_FROM_BUFFER (x : Z) (d : tables) : tables :=
  Tables (VALIDATION_QUEUE d)
         (insert_select (PROCESSING_QUEUE d) (snd <$> where_id x (BUFFER d)))
         (BUFFER d).

Definition DELETE_FROM_BUFFER (x : Z) (d : tables) : tables :=
  Tables (VALIDATION_QUEUE d) (PROCESSING_QUEUE d) (delete_where_id x (BUFFER d)).

(** *** The methods *)

Definition _enqueue_to_processing_queue
    (image_id model_id : Z) (model_type : ModelType) (report_id : Z)
    (image : bytes) (generate_mask : option bool) : M state unit :=
  '(classification_report_id, segmentation_report_id) ←
    match model_type with
    | Processing CLASSIFICATION => mret (Some report_id, None)
    | Processing SEGMENTATION => mret (None, Some report_id)
    | _ => raise (ValueError ("Invalid model type: " +:+ str_ModelType model_type))
    end;
  execute (INSERT_INTO_VALIDATION_QUEUE
             (ValidationJob None
                (Job image_id model_id classification_report_id segmentation_report_id
                     image generate_mask)));;
  commit.

Definition dequeue_from_processing_queue : M state (option Queue.QueueElement) :=
  lock_tables;;
  row ← fetchone SELECT_FROM_PROCESSING_QUEUE_ORDER_BY_ID_LIMIT_1;
  match row with
  | None => unlock_tables;; mret None
  | Some row =>
      execute (DELETE_FROM_PROCESSING_QUEUE row.1);;
      commit;;
      unlock_tables;;
      '(report_id, report_type) ←
        from_result (Queue.process_report_id (CLASSIFICATION_REPORT_ID row.2)
                                             (SEGMENTATION_REPORT_ID row.2));
      mret (Some (Queue.mkQueueElement row.1 (Some (MODEL_ID row.2)) report_id report_type
                                       (IMAGE row.2) (GENERATE_MASK row.2)))
  end.

Definition _enqueue_to_validation_queue
    (image_id validation_model_id model_id : Z) (model_type : ModelType) (report_id : Z)
    (image : bytes) (generate_mask : option bool) : M state unit :=
  '(classification_report_id, segmentation_report_id) ←
    match model_type with
    | Processing CLASSIFICATION => mret (Some report_id, None)
    | Processing SEGMENTATION => mret (None, Some report_id)
    | _ => raise (ValueError ("Invalid model type: " +:+ str_ModelType model_type))
    end;
  execute (INSERT_INTO_VALIDATION_QUEUE
             (ValidationJob (Some validation_model_id)
                (Job image_id model_id classification_report_id segmentation_report_id
                     image generate_mask)));;
  commit.

(** The SELECT reads five columns of the oldest row; [QueueElement] is
    built without its sixth argument, which defaults to [False]. *)
Definition dequeue_from_validation_queue : M state (option Queue.QueueElement) :=
  lock_tables;;
  row ← fetchone SELECT_FROM_VALIDATION_QUEUE_ORDER_BY_ID_LIMIT_1;
  match row with
  | None => unlock_tables;; mret None
  | Some row =>
      execute (INSERT_INTO_BUFFER_SELECT_FROM_VALIDATION_QUEUE row.1);;
      execute (DELETE_FROM_VALIDATION_QUEUE row.1);;
      commit;;
      unlock_tables;;
      '(report_id, report_type) ←
        from_result (Queue.process_report_id (CLASSIFICATION_REPORT_ID (JOB row.2))
                                             (SEGMENTATION_REPORT_ID (JOB row.2)));
      mret (Some (Queue.mkQueueElement row.1 (VALIDATION_MODEL_ID row.2) report_id report_type
                                       (IMAGE (JOB row.2)) (Some false)))
  end.

Definition update_buffer (element_id : Z) (validation_result : bool) : M state unit :=
  (if validation_result
   then execute (INSERT_INTO_PROCESSING_QUEUE_SELECT_FROM_BUFFER element_id)
   else mret tt);;
  execute (DELETE_FROM_BUFFER element_id);;
  commit.

Definition enqueue_to_processing_queue :=
  Queue.enqueue_to_processing_queue _enqueue_to_processing_queue.

Definition enqueue_to_validation_queue :=
  Queue.enqueue_to_validation_queue _enqueue_to_validation_queue.

(** *** Polling *)

(** A SELECT of the row count always yields one row, the count. *)
Definition SELECT_COUNT_FROM_PROCESSING_QUEUE (d : tables) : option Z :=
  Some (Z.of_nat (length (rows (PROCESSING_QUEUE d)))).

Definition SELECT_COUNT_FROM_VALIDATION_QUEUE (d : tables) : option Z :=
  Some (Z.of_nat (length (rows (VALIDATION_QUEUE d)))).

(** [result[0]] on a missing row is Python's [TypeError]. *)
Definition processing_queue_has_elements : M state bool :=
  result ← fetchone SELECT_COUNT_FROM_PROCESSING_QUEUE;
  match result with
  | Some count => mret (0 <? count)
  | None => raise (TypeError "'NoneType' object is not subscriptable")
  end.

Definition validation_queue_has_elements : M state bool :=
  result ← fetchone SELECT_COUNT_FROM_VALIDATION_QUEUE;
  match result with
  | Some count => mret (0 <? count)
  | None => raise (TypeError "'NoneType' object is not subscriptable")
  end.

End MySQLQueue.

(** ** The MySQL database ([interfaces/database/mysql.py]): the inserts of
    ingestion.  The columns an INSERT does not name keep their defaults and
    are left out of the rows. *)
Module MySQLDatabase.

Record image_row := ImageRow { USER_ID : Z; FILENAME : string }.

Record report_row := ReportRow {
  REPORT_USER_ID : Z;
  REPORT_IMAGE_ID : Z;
  REPORT_MODEL_ID : Z;
  HAS_MASK : option bool
}.

Record tables := Tables {
  IMAGE : table image_row;
  CLASSIFICATION_REPORT : table report_row;
  SEGMENTATION_REPORT : table report_row
}.

Definition empty : tables := Tables empty_table empty_table empty_table.

(** The database object: its connection and the models it cached when it
    was built ([self._enabled_models]). *)
Record state := State {
  connection : conn tables;
  enabled_models : gmap Z Model
}.

#[global] Instance state_rollback : Rollback state :=
  fun s => State (rollback (connection s)) (enabled_models s).

Definition on_connection {A} (m : M (conn tables) A) : M state A :=
  fun budget s =>
    match m budget (connection s) with
    | Returned a c budget' => Returned a (State c (enabled_models s)) budget'
    | Raised e c => Raised e (State c (enabled_models s))
    | Killed c => Killed (State c (enabled_models s))
    end.

Definition insert_image (user_id : Z) (filename : string) : M state Z :=
  on_connection (
    cursor_lastrowid ← execute_lastrowid (fun d =>
      (auto_increment (IMAGE d),
       Tables (insert_into (IMAGE d) (ImageRow user_id filename))
              (CLASSIFICATION_REPORT d) (SEGMENTATION_REPORT d)));
    commit;;
    mret cursor_lastrowid).

Definition insert_classification_report (user_id image_id model_id : Z) : M state Z :=
  on_connection (
    cursor_lastrowid ← execute_lastrowid (fun d =>
      (auto_increment (CLASSIFICATION_REPORT d),
       Tables (IMAGE d)
              (insert_into (CLASSIFICATION_REPORT d)
                           (ReportRow user_id image_id model_id None))
              (SEGMENTATION_REPORT d)));
    commit;;
    mret cursor_lastrowid).

Definition insert_segmentation_report (user_id image_id model_id : Z) (has_mask : bool)
  : M state Z :=
  on_connection (
    cursor_lastrowid ← execute_lastrowid (fun d =>
      (auto_increment (SEGMENTATION_REPORT d),
       Tables (IMAGE d) (CLASSIFICATION_REPORT d)
              (insert_into (SEGMENTATION_REPORT d)
                           (ReportRow user_id image_id model_id (Some has_mask)))));
    commit;;
    mret cursor_lastrowid).

End MySQLDatabase.

(** ** The MySQL blob storage ([interfaces/storage/mysql.py]) *)
Module MySQLStorage.

(** The storage's own IMAGE table: (ID, DATA), the ID given by the caller. *)
Record tables := Tables { IMAGE : list (Z * bytes) }.

Definition empty : tables := Tables [].

Definition state : Type := conn tables.

Definition store_image (image : bytes) (image_id : Z) : M state unit :=
  execute (fun d => Tables (IMAGE d ++ [(image_id, image)]));;
  commit.

End MySQLStorage.

(** ** Ingestion ([enqueue_report.py]) *)

(** The three interface objects [enqueue_report] is given, each with a
    connection of its own. *)
Record interfaces := Interfaces {
  database : MySQLDatabase.state;
  queue : MySQLQueue.state;
  storage : MySQLStorage.state
}.

#[global] Instance interfaces_rollback : Rollback interfaces :=
  fun w => Interfaces (rollback (database w)) (rollback (queue w)) (rollback (storage w)).

(** Running a method of one interface object inside the process; when the
    process is killed every connection loses its open transaction. *)
Definition on {S A} (get : interfaces -> S) (set : S -> interfaces -> interfaces)
    (m : M S A) : M interfaces A :=
  fun budget w =>
    match m budget (get w) with
    | Returned a s budget' => Returned a (set s w) budget'
    | Raised e s => Raised e (set s w)
    | Killed s => Killed (rollback (set s w))
    end.

Definition on_database {A} : M MySQLDatabase.state A -> M interfaces A :=
  on database (fun s w => Interfaces s (queue w) (storage w)).
Definition on_queue {A} : M MySQLQueue.state A -> M interfaces A :=
  on queue (fun s w => Interfaces (database w) s (storage w)).
Definition on_storage {A} : M MySQLStorage.state A -> M interfaces A :=
  on storage (fun s w => Interfaces (database w) (queue w) s).

(** [database.enabled_models[processing_model_id]] *)
Definition enabled_model (model_id : Z) : M interfaces Model :=
  fun budget w =>
    match MySQLDatabase.enabled_models (database w) !! model_id with
    | Some m => Returned m w budget
    | None => Raised (KeyError model_id) w
    end.

(** [validation_model_id] is [int | None]; the [TypeError] arm for a value
    that is neither is outside this type. *)
Definition enqueue_report
    (user_id : Z) (filename : string) (image : bytes)
    (processing_model_id : Z) (processing_model_type : ModelType)
    (generate_mask : bool) (validation_model_id : option Z) : M interfaces Z :=
  m ← enabled_model processing_model_id;
  let _processing_model_type := type m in
  if bool_decide (processing_model_type <> _processing_model_type)
  then raise (ValueError ("Model type mismatch: " +:+ str_ModelType processing_model_type
                           +:+ " expected, " +:+ str_ModelType _processing_model_type
                           +:+ " found"))
  else
    image_id ← on_database (MySQLDatabase.insert_image user_id filename);
    on_storage (MySQLStorage.store_image image image_id);;
    report_id ←
      match processing_model_type with
      | Processing CLASSIFICATION =>
          if generate_mask
          then raise (ValueError "Classification models do not generate masks")
          else on_database (MySQLDatabase.insert_classification_report
                              user_id image_id processing_model_id)
      | Processing SEGMENTATION =>
          on_database (MySQLDatabase.insert_segmentation_report
                         user_id image_id processing_model_id generate_mask)
      | _ => raise (ValueError ("Invalid model type: "
                                +:+ str_ModelType processing_model_type))
      end;
    match validation_model_id with
    | None =>
        on_queue (MySQLQueue.enqueue_to_processing_queue
                    image_id processing_model_id processing_model_type report_id
                    image (Some generate_mask))
    | Some validation_model_id =>
        on_queue (MySQLQueue.enqueue_to_validation_queue
                    image_id validation_model_id processing_model_id processing_model_type
                    report_id image (Some generate_mask))
    end;;
    mret report_id.

(** ** Model descriptors and their registration
    ([models/__init__.py], [interfaces/database/__init__.py],
    [insert_model.py]) *)

#[global] Instance ModelCategory_eq_dec : EqDecision ModelCategory.
Proof. solve_decision. Defined.

#[global] Instance result_ret : MRet result := fun A a => Ok a.

#[global] Instance result_bind : MBind result :=
  fun A B f r => match r with Ok a => f a | Err e => Err e end.

(** [model_type in ValidationModelType], [model_type in ProcessingModelType] *)
Definition in_ValidationModelType (model_type : ModelType) : bool :=
  match model_type with Validation _ => true | Processing _ => false end.

Definition in_ProcessingModelType (model_type : ModelType) : bool :=
  match model_type with Processing _ => true | Validation _ => false end.

(** [ModelCategory.validate_model_category_type] *)
Definition validate_model_category_type
    (model_category : ModelCategory) (model_type : ModelType) : result unit :=
  if (bool_decide (model_category = VALIDATION) && negb (in_ValidationModelType model_type))
     || (bool_decide (model_category = PROCESSING) && negb (in_ProcessingModelType model_type))
  then Err (ValueError ("Invalid model type: " +:+ str_ModelType model_type))
  else Ok tt.

(** The template method [Database.insert_model], over any implementation
    of the abstract [_insert_model]. *)
Module Database.
Section Template.
Context {S : Type}.
Variable _insert_model :
  ModelCategory -> ModelType -> string -> string -> string -> string -> bool -> M S Z.

Definition insert_model
    (model_category : ModelCategory) (model_type : ModelType)
    (subtype module class_name version : string) (enabled : bool) : M S Z :=
  from_result (validate_model_category_type model_category model_type);;
  _insert_model model_category model_type subtype module class_name version enabled.
End Template.
End Database.

(** [insert_model.py]: the script's function, written against the abstract
    [Database] and [Storage]. *)
Module InsertModel.
Section Script.
Context {S : Type}.
Variable _insert_model :
  ModelCategory -> ModelType -> string -> string -> string -> string -> bool -> M S Z.
Variable store_weights : bytes -> Z -> M S unit.

Definition insert_model
    (model_category : ModelCategory) (model_type : ModelType)
    (subtype module class_name version : string) (enabled : bool) (weights : bytes)
  : M S unit :=
  model_id ← Database.insert_model _insert_model model_category model_type
                                   subtype module class_name version enabled;
  store_weights weights model_id.
End Script.
End InsertModel.

(** ** Model wrappers ([core/__init__.py]) and their loading ([main.py]) *)
Module Core.

(** The three subclasses of [ModelWrapper]. *)
Inductive wrapper_class := Classification | Segmentation | CoffeeLeafOCC.

Section ModelWrapper.
Context {ModelBase : Type}.

(** [import_module] of the descriptor's module, [getattr] of its class and
    the call of that class on the weights: the torch model, or what it
    raises. *)
Variable import_model : Model -> bytes -> result ModelBase.

Record ModelWrapper := mkModelWrapper {
  class_ : wrapper_class;
  _model : ModelBase
}.

Definition _get_model (model : Model) (weights : bytes) : result ModelBase :=
  validate_model_category_type (category model) (type model);;
  import_model model weights.

(** [cls(model, weights)]; the placement on a device and [eval()] do not
    change what is modelled. *)
Definition __init__ (cls : wrapper_class) (model : Model) (weights : bytes)
  : result ModelWrapper :=
  m ← _get_model model weights;
  mret (mkModelWrapper cls m).
End ModelWrapper.

End Core.

Module Main.

Module RunningMode.
Inductive t := VALIDATION | PROCESSING | BOTH.
End RunningMode.

Section Loading.
Context {ModelBase : Type}.
Variable import_model : Model -> bytes -> result ModelBase.

Definition load_validation_model (model : Model) (weights : bytes)
  : result (@Core.ModelWrapper ModelBase) :=
  match type model with
  | Validation COFFEE_LEAF_OCC => Core.__init__ import_model Core.CoffeeLeafOCC model weights
  | _ => Err (ValueError ("Invalid validation model type: " +:+ str_ModelType (type model)))
  end.

Definition load_processing_model (model : Model) (weights : bytes)
  : result (@Core.ModelWrapper ModelBase) :=
  match type model with
  | Processing CLASSIFICATION => Core.__init__ import_model Core.Classification model weights
  | Processing SEGMENTATION => Core.__init__ import_model Core.Segmentation model weights
  | _ => Err (ValueError ("Invalid processing model type: " +:+ str_ModelType (type model)))
  end.

(** [ModelCategory] has two members, so the [case _] arm is outside the
    type. *)
Definition load_model (model : Model) (weights : bytes)
  : result (@Core.ModelWrapper ModelBase) :=
  match category model with
  | VALIDATION => load_validation_model model weights
  | PROCESSING => load_processing_model model weights
  end.

Context {S : Type}.

(** [storage.retrieve_weights], a method of the abstract [Storage]. *)
Variable retrieve_weights : Z -> M S bytes.

(** A dict comprehension
    [{id: load(model, storage.retrieve_weights(id))
      for id, model in enabled_models.items() if cond(model)}]
    over the items in the order of the dict. *)
Fixpoint dict_comprehension
    (load : Model -> bytes -> result (@Core.ModelWrapper ModelBase))
    (cond : Model -> bool) (items : list (Z * Model))
    (models : gmap Z (@Core.ModelWrapper ModelBase))
  : M S (gmap Z (@Core.ModelWrapper ModelBase)) :=
  match items with
  | [] => mret models
  | (id, model) :: items' =>
      if cond model
      then
        weights ← retrieve_weights id;
        wrapper ← from_result (load model weights);
        dict_comprehension load cond items' (<[id := wrapper]> models)
      else dict_comprehension load cond items' models
  end.

(** [enabled_models] is [database.enabled_models.items()]. *)
Definition load_proper_models
    (enabled_models : list (Z * Model)) (running_mode : RunningMode.t)
  : M S (gmap Z (@Core.ModelWrapper ModelBase)) :=
  match running_mode with
  | RunningMode.VALIDATION =>
      dict_comprehension load_validation_model
        (fun model => bool_decide (category model = VALIDATION)) enabled_models ∅
  | RunningMode.PROCESSING =>
      dict_comprehension load_processing_model
        (fun model => bool_decide (category model = PROCESSING)) enabled_models ∅
  | RunningMode.BOTH =>
      dict_comprehension load_model
        (fun model => bool_decide (category model = VALIDATION)
                      || bool_decide (category model = PROCESSING))
        enabled_models ∅
  end.
End Loading.

End Main.

(** ** The command line of ingestion ([enqueue_report.py], [__main__]) *)
Module EnqueueReportMain.

(** What [cli()] returns: the subcommand is [classification] or
    [segmentation]; [generate_mask] is an option of [segmentation] only. *)
Record args := Args {
  user_id : Z;
  image_name : string;
  image_read : bytes;
  processing_model_id : Z;
  validation_model_id : option Z;
  processing_model_type : ProcessingModelType;
  generate_mask : bool
}.

Section Main.
(** [os.path.basename] *)
Variable basename : string -> string.

Definition main (a : args) : M interfaces Z :=
  let generate_mask :=
    if bool_decide (processing_model_type a = SEGMENTATION)
    then generate_mask a
    else false in
  enqueue_report (user_id a) (basename (image_name a)) (image_read a)
                 (processing_model_id a) (Processing (processing_model_type a))
                 generate_mask (validation_model_id a).
End Main.

End EnqueueReportMain.

(** ** Observations and invariants used by the statements *)

(** The state a call leaves behind, however it ended. *)
Definition final {S A} (o : outcome S A) : S :=
  match o with
  | Returned _ s _ => s
  | Raised _ s => s
  | Killed s => s
  end.

Definition ids {R} (l : list (Z * R)) : list Z := fst <$> l.

(** Generated IDs grow along the insertion order and stay below the
    counter. *)
Definition table_wf {R} (t : table R) : Prop :=
  StronglySorted Z.lt (ids (rows t)) /\
  Forall (fun i => i < auto_increment t) (ids (rows t)).

(** A row names at most one report, as every INSERT of the code writes it. *)
Definition at_most_one_report (j : MySQLQueue.job) : Prop :=
  MySQLQueue.CLASSIFICATION_REPORT_ID j = None \/
  MySQLQueue.SEGMENTATION_REPORT_ID j = None.

(** The invariant of the queue tables: well-formed queues; a buffer keyed
    by the IDs of validation jobs already dequeued (at most one entry per
    job id, none still in the validation queue). *)
Definition consistent (d : MySQLQueue.tables) : Prop :=
  table_wf (MySQLQueue.VALIDATION_QUEUE d) /\
  table_wf (MySQLQueue.PROCESSING_QUEUE d) /\
  NoDup (ids (MySQLQueue.BUFFER d)) /\
  Forall (fun i => i < auto_increment (MySQLQueue.VALIDATION_QUEUE d)
                   /\ i ∉ ids (rows (MySQLQueue.VALIDATION_QUEUE d)))
         (ids (MySQLQueue.BUFFER d)) /\
  Forall (fun r => at_most_one_report (MySQLQueue.JOB r.2))
         (rows (MySQLQueue.VALIDATION_QUEUE d)) /\
  Forall (fun r => at_most_one_report r.2) (rows (MySQLQueue.PROCESSING_QUEUE d)) /\
  Forall (fun r => at_most_one_report r.2) (MySQLQueue.BUFFER d).

(** What a processing-queue element carries over from its row. *)
Definition carries (e : Queue.QueueElement) (r : Z * MySQLQueue.job) : Prop :=
  Queue.id e = r.1 /\
  Queue.model_id e = Some (MySQLQueue.MODEL_ID r.2) /\
  Queue.process_report_id (MySQLQueue.CLASSIFICATION_REPORT_ID r.2)
                          (MySQLQueue.SEGMENTATION_REPORT_ID r.2)
    = Ok (Queue.report_id e, Queue.report_type e) /\
  Queue.image e = MySQLQueue.IMAGE r.2 /\
  Queue.generate_mask e = MySQLQueue.GENERATE_MASK r.2.

(** Dequeuing from the processing queue until it is empty, at most [n]
    times: the inner loop of [consume_processing_queue_elements] without
    the inference. *)
Fixpoint drain_processing_queue (n : nat) : M MySQLQueue.state (list Queue.QueueElement) :=
  match n with
  | O => mret []
  | S n' =>
      element ← MySQLQueue.dequeue_from_processing_queue;
      match element with
      | None => mret []
      | Some e => es ← drain_processing_queue n'; mret (e :: es)
      end
  end.

#[global] Instance consistent_dec (d : MySQLQueue.tables) : Decision (consistent d).
Proof. unfold consistent, table_wf, at_most_one_report. apply _. Defined.

(** ** Concrete states used to instantiate the statements *)
Module Examples.
Import MySQLQueue.

Definition classification_job : job := Job 10 3 (Some 100) None [] None.

Definition segmentation_job : job :=
  Job 11 4 None (Some 200) [Byte.x89; Byte.x50] (Some true).

(** Two jobs wait for validation, two for processing, and one validation
    job (ID 1) is being judged. *)
Definition worked : tables :=
  Tables (Table [(2, ValidationJob (Some 7) segmentation_job);
                 (3, ValidationJob (Some 7) classification_job)] 4)
         (Table [(1, classification_job); (2, segmentation_job)] 3)
         [(1, segmentation_job)].

Definition leaf_classifier : Model :=
  mkModel PROCESSING (Processing CLASSIFICATION) "resnet" "resnet50" "ResNet50".

(** Empty tables and one enabled classification model, with id 1. *)
Definition fresh_install : interfaces :=
  Interfaces (MySQLDatabase.State (idle MySQLDatabase.empty) {[ 1 := leaf_classifier ]})
             (idle MySQLQueue.empty) (idle MySQLStorage.empty).

End Examples.

(** ** Definitions used by the further properties *)

(** A method keeps the invariant when, started with no open transaction in
    a consistent state, it leaves a consistent state with no open
    transaction, whether it returns, raises or the process is killed. *)
Definition keeps_consistent {A} (m : M MySQLQueue.state A) : Prop :=
  forall (d : MySQLQueue.tables) (budget : option nat),
    consistent d ->
    exists d', final (m budget (idle d)) = idle d' /\ consistent d'.

(** The two report columns [_enqueue_to_processing_queue] and
    [_enqueue_to_validation_queue] write for a model type. *)
Definition report_columns (t : ProcessingModelType) (report_id : Z) : option Z * option Z :=
  match t with
  | CLASSIFICATION => (Some report_id, None)
  | SEGMENTATION => (None, Some report_id)
  end.

Definition queued_job (image_id model_id : Z) (t : ProcessingModelType) (report_id : Z)
    (image : bytes) (generate_mask : option bool) : MySQLQueue.job :=
  MySQLQueue.Job image_id model_id (report_columns t report_id).1
                 (report_columns t report_id).2 image generate_mask.

(** One job taken through the validation stage with the given verdict in
    the place of the inference, as the body of the loop of
    [consume_validation_queue_elements] does, followed by what the
    processing worker then dequeues. *)
Definition through_validation (verdict : bool)
  : M MySQLQueue.state (option Queue.QueueElement * option Queue.QueueElement) :=
  element ← MySQLQueue.dequeue_from_validation_queue;
  match element with
  | None => mret (None, None)
  | Some e =>
      MySQLQueue.update_buffer (Queue.id e) verdict;;
      processed ← MySQLQueue.dequeue_from_processing_queue;
      mret (Some e, processed)
  end.

(** The interface objects with no open transaction. *)
Definition world (db : MySQLDatabase.tables) (models : gmap Z Model)
    (q : MySQLQueue.tables) (st : MySQLStorage.tables) : interfaces :=
  Interfaces (MySQLDatabase.State (idle db) models) (idle q) (idle st).

(** The database tables after the IMAGE row, and after the report row. *)
Definition with_image (user_id : Z) (filename : string) (db : MySQLDatabase.tables)
  : MySQLDatabase.tables :=
  MySQLDatabase.Tables
    (insert_into (MySQLDatabase.IMAGE db) (MySQLDatabase.ImageRow user_id filename))
    (MySQLDatabase.CLASSIFICATION_REPORT db) (MySQLDatabase.SEGMENTATION_REPORT db).

Definition with_report (t : ProcessingModelType) (user_id image_id model_id : Z)
    (generate_mask : bool) (db : MySQLDatabase.tables) : MySQLDatabase.tables :=
  match t with
  | CLASSIFICATION =>
      MySQLDatabase.Tables
        (MySQLDatabase.IMAGE db)
        (insert_into (MySQLDatabase.CLASSIFICATION_REPORT db)
                     (MySQLDatabase.ReportRow user_id image_id model_id None))
        (MySQLDatabase.SEGMENTATION_REPORT db)
  | SEGMENTATION =>
      MySQLDatabase.Tables
        (MySQLDatabase.IMAGE db) (MySQLDatabase.CLASSIFICATION_REPORT db)
        (insert_into (MySQLDatabase.SEGMENTATION_REPORT db)
                     (MySQLDatabase.ReportRow user_id image_id model_id (Some generate_mask)))
  end.

Definition next_report_id (t : ProcessingModelType) (db : MySQLDatabase.tables) : Z :=
  match t with
  | CLASSIFICATION => auto_increment (MySQLDatabase.CLASSIFICATION_REPORT db)
  | SEGMENTATION => auto_increment (MySQLDatabase.SEGMENTATION_REPORT db)
  end.

Definition with_stored_image (image_id : Z) (image : bytes) (st : MySQLStorage.tables)
  : MySQLStorage.tables :=
  MySQLStorage.Tables (MySQLStorage.IMAGE st ++ [(image_id, image)]).

(** Whether a model type is a member of the enumeration of a category. *)
Definition belongs_to (model_category : ModelCategory) (model_type : ModelType) : bool :=
  match model_category, model_type with
  | VALIDATION, Validation _ | PROCESSING, Processing _ => true
  | _, _ => false
  end.

(** The wrapper class [main.py] picks for a model type. *)
Definition class_of (model_type : ModelType) : Core.wrapper_class :=
  match model_type with
  | Validation COFFEE_LEAF_OCC => Core.CoffeeLeafOCC
  | Processing CLASSIFICATION => Core.Classification
  | Processing SEGMENTATION => Core.Segmentation
  end.

(** The categories a running mode loads. *)
Definition mode_admits (running_mode : Main.RunningMode.t) (model_category : ModelCategory)
  : bool :=
  match running_mode, model_category with
  | Main.RunningMode.VALIDATION, VALIDATION
  | Main.RunningMode.PROCESSING, PROCESSING
  | Main.RunningMode.BOTH, _ => true
  | _, _ => false
  end.


(** Further concrete states. *)
Module MoreExamples.
Import MySQLQueue.

(** A processing queue whose only row names two reports. *)
Definition doubly_reported : tables :=
  Tables empty_table (Table [(1, Job 10 3 (Some 100) (Some 200) [] None)] 2) [].

Definition leaf_detector : Model :=
  mkModel VALIDATION (Validation COFFEE_LEAF_OCC) "resnet" "resnet18" "ResNet18".

(** The items of a registry with one validation and one processing model. *)
Definition registry : list (Z * Model) :=
  [(1, leaf_detector); (2, Examples.leaf_classifier)].

(** A model output in which [stress] pixels are brightest in channel 2
    and [leaf] pixels in channel 1. *)
Definition pixels (stress leaf : nat) : Segmentation.output :=
  Segmentation.Output
    (replicate (stress + leaf) 0%float)
    (replicate stress 0%float ++ replicate leaf 255%float)
    (replicate stress 255%float ++ replicate leaf 0%float).

End MoreExamples.

(** * Verification *)

(** ** Order of binary64 values *)
Section FloatOrder.
#[local] Set Warnings "-inexact-float".
Import Segmentation.

Lemma SFcompare_swap x y : SFcompare y x = CompOpp <$> SFcompare x y.
Proof.
  destruct x as [sx|sx| |sx mx ex], y as [sy|sy| |sy my ey]; simpl; try reflexivity;
    try (destruct sx; reflexivity); try (destruct sy; reflexivity);
    try (destruct sx, sy; reflexivity).
  destruct sx, sy; simpl; try reflexivity; f_equal;
    rewrite (Z.compare_antisym ex ey);
    destruct (ex ?= ey); simpl; try reflexivity;
    change (Pos.compare_cont Eq my mx) with (my ?= mx)%positive;
    change (Pos.compare_cont Eq mx my) with (mx ?= my)%positive;
    rewrite (Pos.compare_antisym mx my); try reflexivity;
    try now rewrite CompOpp_involutive.
Qed.

Lemma SFcompare_trans x y z c :
  SFcompare x y = Some Lt -> SFcompare y z = Some c -> c <> Gt -> SFcompare x z = Some Lt.
Proof.
  destruct x as [sx|sx| |sx mx ex], y as [sy|sy| |sy my ey], z as [sz|sz| |sz mz ez];
    simpl; try discriminate;
    try (destruct sx; try discriminate); try (destruct sy; try discriminate);
    try (destruct sz; try discriminate); simpl; try congruence;
    intros Hxy Hyz Hc; try (injection Hyz as <-; congruence).
  all: injection Hxy as Hxy; injection Hyz as Hyz; f_equal.
  all: change (Pos.compare_cont Eq) with Pos.compare in *.
  all: destruct (Z.compare_spec ex ey), (Z.compare_spec ey ez), (Z.compare_spec ex ez);
      try lia; try congruence; subst.
  all: destruct (Pos.compare_spec mx my), (Pos.compare_spec my mz), (Pos.compare_spec mx mz);
      simpl in *; try lia; try congruence.
Qed.
Lemma SFcompare_None x y : SFcompare x y = None <-> x = S754_nan \/ y = S754_nan.
Proof.
  destruct x as [sx|sx| |sx mx ex], y as [sy|sy| |sy my ey]; simpl;
    try (destruct sx); try (destruct sy); simpl; split; intros H;
    try discriminate; try (destruct H; discriminate); auto.
Qed.

Lemma SFcompare_mono x a b :
  SFcompare a b = Some Lt ->
  match SFcompare x a, SFcompare x b with
  | Some Lt, Some Lt | Some Eq, Some Lt | Some Gt, Some _ | None, None => True
  | _, _ => False
  end.
Proof.
  intros Hab.
  destruct (SFcompare x a) as [ca|] eqn:Hxa.
  - destruct (SFcompare x b) as [cb|] eqn:Hxb.
    + destruct ca; trivial.
      * destruct cb; trivial.
        -- pose proof (SFcompare_swap x b) as Hbx. rewrite Hxb in Hbx; simpl in Hbx.
           pose proof (SFcompare_trans a b x Eq Hab Hbx ltac:(discriminate)) as Hax.
           rewrite SFcompare_swap, Hxa in Hax. discriminate.
        -- pose proof (SFcompare_swap x b) as Hbx. rewrite Hxb in Hbx; simpl in Hbx.
           pose proof (SFcompare_trans a b x Lt Hab Hbx ltac:(discriminate)) as Hax.
           rewrite SFcompare_swap, Hxa in Hax. discriminate.
      * rewrite (SFcompare_trans x a b Lt Hxa Hab) in Hxb by discriminate.
        injection Hxb as <-. trivial.
    + apply SFcompare_None in Hxb as [-> | ->]; simpl in *; try discriminate.
      destruct a as [sa|sa| |sa ma ea]; simpl in Hab; discriminate.
  - apply SFcompare_None in Hxa as [-> | ->]; simpl in *; try discriminate. trivial.
Qed.

Lemma Prim2SF_nan r : is_nan r = false -> Prim2SF r <> S754_nan.
Proof.
  intros H. unfold Prim2SF. rewrite H.
  destruct (is_zero r); [discriminate|].
  destruct (is_infinity r); [discriminate|].
  destruct (Z.frexp r) as [m e].
  destruct (shr_fexp _ _ _ _ _) as [shr e'].
  destruct (shr_m shr); discriminate.
Qed.

Lemma thresholds_increasing :
  SFcompare (Prim2SF 0.001) (Prim2SF 0.05) = Some Lt /\
  SFcompare (Prim2SF 0.05) (Prim2SF 0.1) = Some Lt /\
  SFcompare (Prim2SF 0.1) (Prim2SF 0.15) = Some Lt.
Proof. vm_compute. auto. Qed.

(** On a Python [float], [_ratio_to_severity] is the five-bucket step
    function over the binary64 values of the literals: below 0.001
    severity 0, in [0.001, 0.05] severity 1, in (0.05, 0.1] severity 2, in
    (0.1, 0.15] severity 3, above 0.15 severity 4; every ratio that is a
    number falls in exactly the bucket of its range (only NaN falls
    through to -1), and the binary64 values of 0.001, 0.05, 0.1 and 0.15
    give 1, 1, 2 and 3. *)
Theorem ratio_to_severity_buckets (r : float) :
  ((r <? 0.001)%float = true <-> _ratio_to_severity r = 0) /\
  ((0.001 <=? r)%float && (r <=? 0.05)%float = true <-> _ratio_to_severity r = 1) /\
  ((0.05 <? r)%float && (r <=? 0.1)%float = true <-> _ratio_to_severity r = 2) /\
  ((0.1 <? r)%float && (r <=? 0.15)%float = true <-> _ratio_to_severity r = 3) /\
  ((0.15 <? r)%float = true <-> _ratio_to_severity r = 4) /\
  (is_nan r = false -> 0 <= _ratio_to_severity r <= 4) /\
  (is_nan r = true -> _ratio_to_severity r = -1) /\
  _ratio_to_severity 0.001 = 1 /\ _ratio_to_severity 0.05 = 1 /\
  _ratio_to_severity 0.1 = 2 /\ _ratio_to_severity 0.15 = 3.
Proof.
  destruct thresholds_increasing as (Hab & Hbc & Hcd).
  pose proof (SFcompare_mono (Prim2SF r) _ _ Hab) as M1.
  pose proof (SFcompare_mono (Prim2SF r) _ _ Hbc) as M2.
  pose proof (SFcompare_mono (Prim2SF r) _ _ Hcd) as M3.
  assert (HN : is_nan r = false -> SFcompare (Prim2SF r) (Prim2SF 0.001) <> None).
  { intros H E. apply SFcompare_None in E as [E|E]; [now apply Prim2SF_nan in E|].
    vm_compute in E. discriminate. }
  assert (HT : is_nan r = true -> SFcompare (Prim2SF r) (Prim2SF 0.001) = None).
  { intros H. unfold Prim2SF at 1. rewrite H. reflexivity. }
  unfold _ratio_to_severity.
  rewrite !ltb_spec, !leb_spec. unfold SFltb, SFleb.
  rewrite (SFcompare_swap (Prim2SF r) (Prim2SF 0.001)),
          (SFcompare_swap (Prim2SF r) (Prim2SF 0.05)),
          (SFcompare_swap (Prim2SF r) (Prim2SF 0.1)),
          (SFcompare_swap (Prim2SF r) (Prim2SF 0.15)).
  destruct (SFcompare (Prim2SF r) (Prim2SF 0.001)) as [[]|];
  destruct (SFcompare (Prim2SF r) (Prim2SF 0.05)) as [[]|];
  destruct (SFcompare (Prim2SF r) (Prim2SF 0.1)) as [[]|];
  destruct (SFcompare (Prim2SF r) (Prim2SF 0.15)) as [[]|];
  simpl in *; try contradiction;
  repeat split; intros; try discriminate; try reflexivity; try lia;
  try (exfalso; apply HN; auto);
  try (destruct (is_nan r); [specialize (HT eq_refl)|]; discriminate).
  all: vm_compute; reflexivity.
Qed.

End FloatOrder.

(** ** Order of binary32 values *)

(** On the numbers of a format the IEEE comparison is the order of the
    real numbers. *)
Section RealOrder.
Variables prec emax : Z.

Lemma digits2_pos_bounds m :
  2 ^ (Z.pos (digits2_pos m) - 1) <= Z.pos m < 2 ^ Z.pos (digits2_pos m).
Proof.
  induction m as [m IH|m IH|]; simpl digits2_pos; [| |simpl; lia].
  all: rewrite Pos2Z.inj_succ;
    replace (Z.succ (Z.pos (digits2_pos m)) - 1) with (Z.succ (Z.pos (digits2_pos m) - 1))
      by lia;
    rewrite !Z.pow_succ_r by lia; lia.
Qed.

Lemma canonical_lt m1 e1 m2 e2 :
  0 < prec ->
  canonical_mantissa prec emax m1 e1 = true ->
  canonical_mantissa prec emax m2 e2 = true ->
  e1 < e2 -> Z.pos m1 < Z.pos m2 * 2 ^ (e2 - e1).
Proof.
  unfold canonical_mantissa, fexp. intros prec_pos H1%Z.eqb_eq H2%Z.eqb_eq He.
  pose proof (digits2_pos_bounds m1) as [_ B1].
  pose proof (digits2_pos_bounds m2) as [B2 _].
  assert (D1 : Z.pos (digits2_pos m1) <= prec) by lia.
  assert (D2 : Z.pos (digits2_pos m2) = prec) by lia.
  rewrite D2 in B2.
  assert (Z.pos m1 < 2 ^ prec).
  { eapply Z.lt_le_trans; [exact B1|]. apply Z.pow_le_mono_r; lia. }
  assert (2 ^ prec <= Z.pos m2 * 2 ^ (e2 - e1)).
  { replace prec with (Z.succ (prec - 1)) at 1 by lia.
    rewrite Z.pow_succ_r by lia.
    assert (2 ^ 1 <= 2 ^ (e2 - e1)) by (apply Z.pow_le_mono_r; lia).
    assert (0 < 2 ^ (prec - 1)) by (apply Z.pow_pos_nonneg; lia).
    change (2 ^ 1) with 2 in *. nia. }
  lia.
Qed.

Lemma scaled_mantissa (n e e0 : Z) :
  e0 <= e -> (inject_Z n * 2 ^ e == inject_Z (n * 2 ^ (e - e0)) * 2 ^ e0)%Q.
Proof.
  intros He. replace e with ((e - e0) + e0) at 1 by lia.
  rewrite Qpower_plus by discriminate.
  rewrite inject_Z_mult, (Zpower_Qpower 2 (e - e0)) by lia.
  change (inject_Z 2) with 2%Q. ring.
Qed.

Lemma power_of_2_positive e : (0 < 2 ^ e)%Q.
Proof. apply Qpower_0_lt. reflexivity. Qed.

Lemma SFcompare_positive m1 e1 m2 e2 :
  0 < prec ->
  canonical_mantissa prec emax m1 e1 = true ->
  canonical_mantissa prec emax m2 e2 = true ->
  SFcompare (S754_finite false m1 e1) (S754_finite false m2 e2)
  = Some (real_value (S754_finite false m1 e1) ?= real_value (S754_finite false m2 e2))%Q.
Proof.
  intros prec_pos H1 H2. simpl SFcompare. unfold real_value. f_equal.
  rewrite !Qmult_1_l. symmetry.
  destruct (Z.compare_spec e1 e2) as [->|He|He].
  - change (Pos.compare_cont Eq m1 m2) with (Z.pos m1 ?= Z.pos m2).
    destruct (Z.compare_spec (Z.pos m1) (Z.pos m2)) as [E|E|E].
    + apply Qeq_alt. injection E as ->. reflexivity.
    + apply Qlt_alt. apply Qmult_lt_r; [apply power_of_2_positive|]. now rewrite <- Zlt_Qlt.
    + apply Qgt_alt. apply Qmult_lt_r; [apply power_of_2_positive|]. now rewrite <- Zlt_Qlt.
  - apply Qlt_alt. rewrite (scaled_mantissa (Z.pos m2) e2 e1) by lia.
    apply Qmult_lt_r; [apply power_of_2_positive|]. rewrite <- Zlt_Qlt.
    now apply canonical_lt.
  - apply Qgt_alt. rewrite (scaled_mantissa (Z.pos m1) e1 e2) by lia.
    apply Qmult_lt_r; [apply power_of_2_positive|]. rewrite <- Zlt_Qlt.
    now apply canonical_lt.
Qed.

Lemma SFcompare_real r mt et :
  0 < prec ->
  match r with
  | S754_zero _ => True
  | S754_finite _ m e => canonical_mantissa prec emax m e = true
  | _ => False
  end ->
  canonical_mantissa prec emax mt et = true ->
  SFcompare r (S754_finite false mt et)
  = Some (real_value r ?= real_value (S754_finite false mt et))%Q.
Proof.
  intros prec_pos Hr Ht.
  assert (Hpos : (0 < real_value (S754_finite false mt et))%Q).
  { simpl. rewrite Qmult_1_l.
    apply Qmult_lt_0_compat; [reflexivity|apply power_of_2_positive]. }
  destruct r as [s|s| |[] m e]; try contradiction.
  - simpl SFcompare. f_equal. symmetry. now apply Qlt_alt.
  - simpl SFcompare. f_equal. symmetry. apply Qlt_alt.
    eapply Qlt_trans; [|exact Hpos]. simpl.
    assert (0 < inject_Z (Z.pos m) * 2 ^ e)%Q
      by (apply Qmult_lt_0_compat; [reflexivity|apply power_of_2_positive]).
    assert (E : (-1 * inject_Z (Z.pos m) * 2 ^ e == - (inject_Z (Z.pos m) * 2 ^ e))%Q)
      by ring.
    rewrite E. now apply (Qopp_lt_compat 0).
  - now apply SFcompare_positive.
Qed.
End RealOrder.

Section Float32Order.
#[local] Set Warnings "-inexact-float".
Import Segmentation.

Lemma float32_thresholds_increasing :
  SFcompare (Float32.of_float 0.001) (Float32.of_float 0.05) = Some Lt /\
  SFcompare (Float32.of_float 0.05) (Float32.of_float 0.1) = Some Lt /\
  SFcompare (Float32.of_float 0.1) (Float32.of_float 0.15) = Some Lt.
Proof. vm_compute. auto. Qed.

Lemma float32_real_order (r : spec_float) (mt : positive) (et : Z) :
  Float32.is_number r = true ->
  canonical_mantissa Float32.prec Float32.emax mt et = true ->
  let t := S754_finite false mt et in
  (SFltb r t = true <-> (real_value r < real_value t)%Q) /\
  (SFleb r t = true <-> (real_value r <= real_value t)%Q) /\
  (SFltb t r = true <-> (real_value t < real_value r)%Q) /\
  (SFleb t r = true <-> (real_value t <= real_value r)%Q).
Proof.
  intros Hr Ht t.
  assert (H : SFcompare r t = Some (real_value r ?= real_value t)%Q).
  { apply (SFcompare_real Float32.prec Float32.emax); [reflexivity| |exact Ht].
    destruct r as [s|s| |s m e]; try discriminate; [exact I|].
    simpl in Hr. unfold bounded in Hr. now apply andb_prop in Hr as [Hr _]. }
  pose proof (Qlt_alt (real_value r) (real_value t)) as Hlt.
  pose proof (Qle_alt (real_value r) (real_value t)) as Hle.
  pose proof (Qgt_alt (real_value r) (real_value t)) as Hgt.
  pose proof (Qge_alt (real_value r) (real_value t)) as Hge.
  rewrite Hlt, Hle, Hgt, Hge.
  unfold SFltb, SFleb. rewrite (SFcompare_swap r t), H.
  destruct (real_value r ?= real_value t)%Q; simpl;
    repeat split; intros; congruence.
Qed.

(** C4, over the values the code compares: [_ratio_to_severity] is a
    five-bucket step function whose thresholds are the literals 0.001,
    0.05, 0.1 and 0.15 rounded to the precision of its argument.  On the [float32] ratio that
    [_get_stress_ratio_and_severity] passes, the thresholds are the
    [float32] values 8589935 / 2^33, 13421773 / 2^28, 13421773 / 2^27 and
    10066330 / 2^26, each greater than its decimal: a ratio below the
    first has severity 0, from the first to the second 1, above the second
    up to the third 2, above the third up to the fourth 3, above the
    fourth 4, in the comparisons of the code and, for a ratio that is a
    number, in the order of the real numbers; every ratio that is not NaN
    falls in exactly the bucket of its range and only NaN (no leaf and no
    stress pixel) falls through to -1; the four thresholds, which are the
    ratios computed for 1 stress pixel in 1000, 1 in 20, 1 in 10 and 3 in
    20, have severity 1, 1, 2 and 3.  On a Python [float] the same holds
    over the binary64 values of the literals. *)
Theorem ratio_to_severity_rounds_thresholds_to_argument (r : spec_float) :
  ((SFltb r (Float32.of_float 0.001) = true <-> Tensor._ratio_to_severity r = 0) /\
   (SFleb (Float32.of_float 0.001) r && SFleb r (Float32.of_float 0.05) = true
    <-> Tensor._ratio_to_severity r = 1) /\
   (SFltb (Float32.of_float 0.05) r && SFleb r (Float32.of_float 0.1) = true
    <-> Tensor._ratio_to_severity r = 2) /\
   (SFltb (Float32.of_float 0.1) r && SFleb r (Float32.of_float 0.15) = true
    <-> Tensor._ratio_to_severity r = 3) /\
   (SFltb (Float32.of_float 0.15) r = true <-> Tensor._ratio_to_severity r = 4) /\
   (r <> S754_nan -> 0 <= Tensor._ratio_to_severity r <= 4) /\
   (r = S754_nan -> Tensor._ratio_to_severity r = -1)) /\
  (Float32.of_float 0.001 = S754_finite false 8589935 (-33) /\
   Float32.of_float 0.05 = S754_finite false 13421773 (-28) /\
   Float32.of_float 0.1 = S754_finite false 13421773 (-27) /\
   Float32.of_float 0.15 = S754_finite false 10066330 (-26)) /\
  (real_value (Float32.of_float 0.001) = (8589935 # 8589934592)%Q /\
   real_value (Float32.of_float 0.05) = (13421773 # 268435456)%Q /\
   real_value (Float32.of_float 0.1) = (13421773 # 134217728)%Q /\
   real_value (Float32.of_float 0.15) = (10066330 # 67108864)%Q) /\
  ((1 # 1000 < 8589935 # 8589934592)%Q /\
   (5 # 100 < 13421773 # 268435456)%Q /\
   (1 # 10 < 13421773 # 134217728)%Q /\
   (15 # 100 < 10066330 # 67108864)%Q) /\
  (Float32.is_number r = true ->
   ((real_value r < 8589935 # 8589934592)%Q <-> Tensor._ratio_to_severity r = 0) /\
   ((8589935 # 8589934592 <= real_value r)%Q /\
    (real_value r <= 13421773 # 268435456)%Q <-> Tensor._ratio_to_severity r = 1) /\
   ((13421773 # 268435456 < real_value r)%Q /\
    (real_value r <= 13421773 # 134217728)%Q <-> Tensor._ratio_to_severity r = 2) /\
   ((13421773 # 134217728 < real_value r)%Q /\
    (real_value r <= 10066330 # 67108864)%Q <-> Tensor._ratio_to_severity r = 3) /\
   ((10066330 # 67108864 < real_value r)%Q <-> Tensor._ratio_to_severity r = 4)) /\
  (Tensor._ratio_to_severity (Float32.of_float 0.001) = 1 /\
   Tensor._ratio_to_severity (Float32.of_float 0.05) = 1 /\
   Tensor._ratio_to_severity (Float32.of_float 0.1) = 2 /\
   Tensor._ratio_to_severity (Float32.of_float 0.15) = 3) /\
  (_get_stress_ratio_and_severity (MoreExamples.pixels 1 999)
   = (Float32.to_float (Float32.of_float 0.001), 1) /\
   _get_stress_ratio_and_severity (MoreExamples.pixels 1 19)
   = (Float32.to_float (Float32.of_float 0.05), 1) /\
   _get_stress_ratio_and_severity (MoreExamples.pixels 1 9)
   = (Float32.to_float (Float32.of_float 0.1), 2) /\
   _get_stress_ratio_and_severity (MoreExamples.pixels 3 17)
   = (Float32.to_float (Float32.of_float 0.15), 3) /\
   _get_stress_ratio_and_severity (MoreExamples.pixels 0 0) = (nan, -1)) /\
  (forall x : float,
     ((x <? 0.001)%float = true <-> _ratio_to_severity x = 0) /\
     ((0.001 <=? x)%float && (x <=? 0.05)%float = true <-> _ratio_to_severity x = 1) /\
     ((0.05 <? x)%float && (x <=? 0.1)%float = true <-> _ratio_to_severity x = 2) /\
     ((0.1 <? x)%float && (x <=? 0.15)%float = true <-> _ratio_to_severity x = 3) /\
     ((0.15 <? x)%float = true <-> _ratio_to_severity x = 4) /\
     (is_nan x = false -> 0 <= _ratio_to_severity x <= 4) /\
     (is_nan x = true -> _ratio_to_severity x = -1)).
Proof.
  assert (A :
    (SFltb r (Float32.of_float 0.001) = true <-> Tensor._ratio_to_severity r = 0) /\
    (SFleb (Float32.of_float 0.001) r && SFleb r (Float32.of_float 0.05) = true
     <-> Tensor._ratio_to_severity r = 1) /\
    (SFltb (Float32.of_float 0.05) r && SFleb r (Float32.of_float 0.1) = true
     <-> Tensor._ratio_to_severity r = 2) /\
    (SFltb (Float32.of_float 0.1) r && SFleb r (Float32.of_float 0.15) = true
     <-> Tensor._ratio_to_severity r = 3) /\
    (SFltb (Float32.of_float 0.15) r = true <-> Tensor._ratio_to_severity r = 4) /\
    (r <> S754_nan -> 0 <= Tensor._ratio_to_severity r <= 4) /\
    (r = S754_nan -> Tensor._ratio_to_severity r = -1)).
  { destruct float32_thresholds_increasing as (Hab & Hbc & Hcd).
    pose proof (SFcompare_mono r _ _ Hab) as M1.
    pose proof (SFcompare_mono r _ _ Hbc) as M2.
    pose proof (SFcompare_mono r _ _ Hcd) as M3.
    assert (HN : r <> S754_nan -> SFcompare r (Float32.of_float 0.001) <> None).
    { intros H E. apply SFcompare_None in E as [E|E]; [contradiction|].
      vm_compute in E. discriminate. }
    assert (HT : r = S754_nan -> SFcompare r (Float32.of_float 0.001) = None).
    { intros ->. reflexivity. }
    unfold Tensor._ratio_to_severity, SFltb, SFleb.
    rewrite (SFcompare_swap r (Float32.of_float 0.001)),
            (SFcompare_swap r (Float32.of_float 0.05)),
            (SFcompare_swap r (Float32.of_float 0.1)),
            (SFcompare_swap r (Float32.of_float 0.15)).
    destruct (SFcompare r (Float32.of_float 0.001)) as [[]|];
    destruct (SFcompare r (Float32.of_float 0.05)) as [[]|];
    destruct (SFcompare r (Float32.of_float 0.1)) as [[]|];
    destruct (SFcompare r (Float32.of_float 0.15)) as [[]|];
    simpl in *; try contradiction;
    repeat split; intros; try discriminate; try reflexivity; try lia;
    try (exfalso; apply HN; [assumption|reflexivity]);
    try (specialize (HT ltac:(assumption)); discriminate). }
  split; [exact A|].
  split; [vm_compute; auto|].
  split; [vm_compute; auto|].
  split; [vm_compute; auto|].
  split.
  { intros Hr.
    destruct A as (A0 & A1 & A2 & A3 & A4 & _).
    rewrite andb_true_iff in A1, A2, A3.
    replace (8589935 # 8589934592)%Q with (real_value (Float32.of_float 0.001))
      by (vm_compute; reflexivity).
    replace (13421773 # 268435456)%Q with (real_value (Float32.of_float 0.05))
      by (vm_compute; reflexivity).
    replace (13421773 # 134217728)%Q with (real_value (Float32.of_float 0.1))
      by (vm_compute; reflexivity).
    replace (10066330 # 67108864)%Q with (real_value (Float32.of_float 0.15))
      by (vm_compute; reflexivity).
    destruct (float32_real_order r 8589935 (-33) Hr eq_refl) as (L1 & _ & _ & G1).
    destruct (float32_real_order r 13421773 (-28) Hr eq_refl) as (_ & L2 & G2 & _).
    destruct (float32_real_order r 13421773 (-27) Hr eq_refl) as (_ & L3 & G3 & _).
    destruct (float32_real_order r 10066330 (-26) Hr eq_refl) as (_ & L4 & G4 & _).
    change (S754_finite false 8589935 (-33)) with (Float32.of_float 0.001) in *.
    change (S754_finite false 13421773 (-28)) with (Float32.of_float 0.05) in *.
    change (S754_finite false 13421773 (-27)) with (Float32.of_float 0.1) in *.
    change (S754_finite false 10066330 (-26)) with (Float32.of_float 0.15) in *.
    tauto. }
  split; [vm_compute; auto|].
  split; [vm_compute; repeat split|].
  intros x. pose proof (ratio_to_severity_buckets x) as H. tauto.
Qed.
End Float32Order.

(** ** Running the queue methods *)

Ltac run :=
  unfold MySQLQueue.enqueue_to_processing_queue, MySQLQueue.enqueue_to_validation_queue,
    Queue.enqueue_to_processing_queue, Queue.enqueue_to_validation_queue,
    MySQLQueue._enqueue_to_processing_queue, MySQLQueue._enqueue_to_validation_queue,
    MySQLQueue.dequeue_from_processing_queue, MySQLQueue.dequeue_from_validation_queue,
    MySQLQueue.update_buffer,
    lock_tables, unlock_tables, commit, fetchone, execute, execute_lastrowid, round_trip,
    from_result, raise, idle, mbind, M_bind, mret, M_ret; simpl.

Section TableFacts.
Context {R : Type}.
Implicit Types (l : list (Z * R)) (r m : Z * R) (i x : Z).

Lemma oldest_None l : order_by_id_limit_1 l = None <-> l = [].
Proof.
  destruct l as [|r l]; simpl; [done|].
  split; [|done].
  destruct (order_by_id_limit_1 l) as [m|]; [|done].
  destruct (m.1 <? r.1); done.
Qed.

Lemma oldest_elem l m : order_by_id_limit_1 l = Some m -> m ∈ l.
Proof.
  revert m. induction l as [|r l IH]; simpl; intros m; [done|].
  destruct (order_by_id_limit_1 l) as [m'|].
  - destruct (m'.1 <? r.1); intros [= <-]; [right; auto | left].
  - intros [= <-]. left.
Qed.

Lemma oldest_least l m : order_by_id_limit_1 l = Some m -> Forall (fun r => m.1 <= r.1) l.
Proof.
  revert m. induction l as [|r l IH]; simpl; intros m; [constructor|].
  destruct (order_by_id_limit_1 l) as [m'|] eqn:E.
  - specialize (IH m' eq_refl).
    destruct (Z.ltb_spec m'.1 r.1); intros [= <-]; constructor; try lia; auto.
    eapply Forall_impl; [exact IH|]. simpl; intros; lia.
  - apply oldest_None in E as ->. intros [= <-]. constructor; [lia|constructor].
Qed.

Lemma oldest_is_first r l :
  StronglySorted Z.lt (ids (r :: l)) -> order_by_id_limit_1 (r :: l) = Some r.
Proof.
  intros Hs. simpl. destruct (order_by_id_limit_1 l) as [m|] eqn:E; [|done].
  apply oldest_elem in E.
  apply StronglySorted_inv in Hs as [_ Hall].
  rewrite Forall_forall in Hall.
  assert (r.1 < m.1) as Hlt.
  { apply Hall. unfold ids. apply list_elem_of_fmap. by exists m. }
  destruct (Z.ltb_spec m.1 r.1); [lia|done].
Qed.

Lemma where_id_absent x l : x ∉ ids l -> where_id x l = [].
Proof.
  intros H. unfold where_id. induction l as [|r l IH]; [done|].
  unfold ids in H. rewrite fmap_cons in H. apply not_elem_of_cons in H as [H1 H2].
  rewrite filter_cons_False; [auto | simpl; congruence].
Qed.

Lemma delete_where_id_absent x l : x ∉ ids l -> delete_where_id x l = l.
Proof.
  intros H. unfold delete_where_id. induction l as [|r l IH]; [done|].
  unfold ids in H. rewrite fmap_cons in H. apply not_elem_of_cons in H as [H1 H2].
  rewrite filter_cons_True; [f_equal; auto | simpl; congruence].
Qed.

Lemma where_id_app x l1 l2 : where_id x (l1 ++ l2) = where_id x l1 ++ where_id x l2.
Proof. apply filter_app. Qed.

Lemma delete_where_id_app x l1 l2 :
  delete_where_id x (l1 ++ l2) = delete_where_id x l1 ++ delete_where_id x l2.
Proof. apply filter_app. Qed.

Lemma where_id_unique x (a : R) l1 l2 :
  x ∉ ids l1 -> x ∉ ids l2 -> where_id x (l1 ++ (x, a) :: l2) = [(x, a)].
Proof.
  intros H1 H2. rewrite where_id_app, (where_id_absent _ _ H1). simpl.
  unfold where_id at 1. rewrite filter_cons_True by done.
  fold (where_id x l2). by rewrite (where_id_absent _ _ H2).
Qed.

Lemma delete_where_id_unique x (a : R) l1 l2 :
  x ∉ ids l1 -> x ∉ ids l2 -> delete_where_id x (l1 ++ (x, a) :: l2) = l1 ++ l2.
Proof.
  intros H1 H2. rewrite delete_where_id_app, (delete_where_id_absent _ _ H1).
  unfold delete_where_id at 1. rewrite filter_cons_False by (simpl; auto).
  fold (delete_where_id x l2). by rewrite (delete_where_id_absent _ _ H2).
Qed.

Lemma ids_delete_where_id x l : x ∉ ids (delete_where_id x l).
Proof.
  unfold ids, delete_where_id. intros H.
  apply list_elem_of_fmap in H as (r & -> & Hr).
  apply list_elem_of_filter in Hr as [Hne _]. by apply Hne.
Qed.

Lemma where_id_elem x r l : r ∈ where_id x l <-> r.1 = x /\ r ∈ l.
Proof. unfold where_id. by rewrite list_elem_of_filter. Qed.

Lemma sorted_head_fresh r l : StronglySorted Z.lt (ids (r :: l)) -> r.1 ∉ ids l.
Proof.
  intros Hs Hin. apply StronglySorted_inv in Hs as [_ Hall].
  rewrite Forall_forall in Hall. specialize (Hall _ Hin). lia.
Qed.
End TableFacts.

(** C10: an element returned by [dequeue_from_validation_queue] has the
    ID of a row of the validation queue, that row's VALIDATION_MODEL_ID as
    its [model_id] and [generate_mask = False]; the row's other columns,
    MODEL_ID and GENERATE_MASK among them, are in the committed buffer. *)
Theorem validation_dequeue_returns_validation_model
    (c c' : MySQLQueue.state) (budget budget' : option nat) (e : Queue.QueueElement) :
  MySQLQueue.dequeue_from_validation_queue budget c = Returned (Some e) c' budget' ->
  exists row,
    row ∈ rows (MySQLQueue.VALIDATION_QUEUE (working c)) /\
    Queue.id e = row.1 /\
    Queue.model_id e = MySQLQueue.VALIDATION_MODEL_ID row.2 /\
    Queue.generate_mask e = Some false /\
    (row.1, MySQLQueue.JOB row.2) ∈ MySQLQueue.BUFFER (committed c').
Proof.
  run.
  destruct budget as [[|[|[|[|[|[|k]]]]]]|]; simpl; try discriminate;
  unfold MySQLQueue.SELECT_FROM_VALIDATION_QUEUE_ORDER_BY_ID_LIMIT_1;
  destruct (order_by_id_limit_1 _) as [row|] eqn:E; simpl; try discriminate;
  destruct (Queue.process_report_id _ _) as [[rid rty]|err]; simpl; try discriminate;
  intros [= <- <- <-]; exists row; simpl;
  apply oldest_elem in E;
  (repeat split; try done);
  apply elem_of_app; right; apply list_elem_of_fmap; exists row; split; try done;
  by apply where_id_elem.
Qed.

(** C8: enqueuing a SEGMENTATION job without [generate_mask] ([None]), to
    the processing queue or to the validation queue, raises the
    [ValueError] of the template method (the spec's InvalidArgument) and
    leaves the state as it was, whatever implements the abstract methods;
    for the MySQL queue no table changes, at any kill budget. *)
Theorem segmentation_without_mask_is_rejected :
  (forall (S : Type) (impl_p : Z -> Z -> ModelType -> Z -> bytes -> option bool -> M S unit)
          (impl_v : Z -> Z -> Z -> ModelType -> Z -> bytes -> option bool -> M S unit)
          image_id validation_model_id model_id report_id image budget (s : S),
      Queue.enqueue_to_processing_queue impl_p
        image_id model_id (Processing SEGMENTATION) report_id image None budget s
      = Raised (ValueError "generate_mask must be provided for segmentation models") s /\
      Queue.enqueue_to_validation_queue impl_v
        image_id validation_model_id model_id (Processing SEGMENTATION) report_id image None
        budget s
      = Raised (ValueError "generate_mask must be provided for segmentation models") s) /\
  (forall image_id validation_model_id model_id report_id image budget (c : MySQLQueue.state),
      final (MySQLQueue.enqueue_to_processing_queue
               image_id model_id (Processing SEGMENTATION) report_id image None budget c) = c /\
      final (MySQLQueue.enqueue_to_validation_queue
               image_id validation_model_id model_id (Processing SEGMENTATION) report_id image
               None budget c) = c).
Proof.
  split; intros; split; reflexivity.
Qed.

(** C9: [process_report_id c None] returns [(c, CLASSIFICATION)] for every
    [c], so [(None, None)] gives report id [None] with type CLASSIFICATION;
    the third case of the [match] statement (index 2, "No report ID found")
    is never the selected one and that error is never the result. *)
Theorem process_report_id_without_segmentation_id :
  (forall c : option Z, Queue.process_report_id c None = Ok (c, CLASSIFICATION)) /\
  Queue.process_report_id None None = Ok (None, CLASSIFICATION) /\
  (forall (c s : option Z) (case : Queue.case_ (option Z * ProcessingModelType)),
      Queue.selected_case (c, s) Queue.process_report_id_cases <> Some (2%nat, case)) /\
  (forall c s : option Z,
      Queue.process_report_id c s <> Err (ValueError "No report ID found")).
Proof.
  split; [|split; [|split]].
  - intros [c|]; reflexivity.
  - reflexivity.
  - intros [c|] [s|] case; vm_compute; congruence.
  - intros [c|] [s|]; vm_compute; congruence.
Qed.

(** C1: what [enqueue_to_processing_queue] does with a valid model type and
    a mask flag: it returns, the processing queue and the buffer are as
    they were, and the one new row, carrying the image id, model id, image
    and mask flag with no validation model id, is at the end of the
    validation queue. *)
Theorem enqueue_to_processing_queue_fills_validation_queue
    (d : MySQLQueue.tables) (image_id model_id : Z) (t : ProcessingModelType)
    (report_id : Z) (image : bytes) (mask : bool) :
  exists d',
    MySQLQueue.enqueue_to_processing_queue
      image_id model_id (Processing t) report_id image (Some mask) None (idle d)
    = Returned tt (idle d') None /\
    MySQLQueue.PROCESSING_QUEUE d' = MySQLQueue.PROCESSING_QUEUE d /\
    MySQLQueue.BUFFER d' = MySQLQueue.BUFFER d /\
    length (rows (MySQLQueue.VALIDATION_QUEUE d'))
    = S (length (rows (MySQLQueue.VALIDATION_QUEUE d))) /\
    exists j, rows (MySQLQueue.VALIDATION_QUEUE d')
    = rows (MySQLQueue.VALIDATION_QUEUE d)
      ++ [(auto_increment (MySQLQueue.VALIDATION_QUEUE d), MySQLQueue.ValidationJob None j)]
    /\ MySQLQueue.IMAGE_ID j = image_id /\ MySQLQueue.MODEL_ID j = model_id
    /\ MySQLQueue.IMAGE j = image /\ MySQLQueue.GENERATE_MASK j = Some mask.
Proof.
  destruct t; run; eexists; (split; [reflexivity|]); simpl;
    rewrite length_app; simpl; repeat split; try lia; eexists; repeat split.
Qed.

Ltac kill_points k :=
  destruct k as [|[|[|[|[|[|[|k]]]]]]]; simpl; auto.

Lemma tables_eta (d : MySQLQueue.tables) :
  MySQLQueue.Tables (MySQLQueue.VALIDATION_QUEUE d) (MySQLQueue.PROCESSING_QUEUE d)
                    (MySQLQueue.BUFFER d) = d.
Proof. by destruct d. Qed.

Lemma table_eta {R} (t : table R) : Table (rows t) (auto_increment t) = t.
Proof. by destruct t. Qed.

(** Facts about the invariants *)

Lemma process_report_id_ok (j : MySQLQueue.job) :
  at_most_one_report j ->
  exists rid rty,
    Queue.process_report_id (MySQLQueue.CLASSIFICATION_REPORT_ID j)
                            (MySQLQueue.SEGMENTATION_REPORT_ID j) = Ok (rid, rty).
Proof.
  intros [H|H]; rewrite H.
  - destruct (MySQLQueue.SEGMENTATION_REPORT_ID j); eexists _, _; reflexivity.
  - destruct (MySQLQueue.CLASSIFICATION_REPORT_ID j); eexists _, _; reflexivity.
Qed.

Lemma table_wf_tail {R} (r : Z * R) (l : list (Z * R)) (n : Z) :
  table_wf (Table (r :: l) n) -> table_wf (Table l n).
Proof.
  unfold table_wf, ids; simpl. intros [Hs Hb].
  apply StronglySorted_cons in Hs as [_ Hs]. apply Forall_cons in Hb as [_ Hb]. done.
Qed.

Lemma table_wf_insert_into {R} (t : table R) (r : R) :
  table_wf t -> table_wf (insert_into t r).
Proof.
  unfold table_wf, insert_into, ids; simpl. intros [Hs Hb].
  rewrite fmap_app; simpl. split.
  - apply StronglySorted_app_2; [|done|repeat constructor].
    intros x1 x2 Hx1 Hx2. apply list_elem_of_singleton in Hx2 as ->.
    rewrite Forall_forall in Hb. by apply Hb.
  - apply Forall_app; split.
    + eapply Forall_impl; [exact Hb|]. simpl; intros; lia.
    + repeat constructor. lia.
Qed.

Lemma insert_select_jobs {R} (rs : list R) (t : table R) :
  snd <$> rows (insert_select t rs) = (snd <$> rows t) ++ rs.
Proof.
  unfold insert_select. revert t. induction rs as [|r rs IH]; intros t; simpl.
  - by rewrite app_nil_r.
  - rewrite IH. simpl. rewrite fmap_app; simpl. by rewrite <- app_assoc.
Qed.

Lemma table_wf_insert_select {R} (rs : list R) (t : table R) :
  table_wf t -> table_wf (insert_select t rs).
Proof.
  unfold insert_select. revert t. induction rs as [|r rs IH]; intros t Ht; simpl; [done|].
  apply IH. by apply table_wf_insert_into.
Qed.

Lemma consistent_empty : consistent MySQLQueue.empty.
Proof.
  unfold consistent, table_wf; simpl. repeat split; constructor.
Qed.

Section Preservation.
Import MySQLQueue.
Implicit Types (d : tables).

Lemma consistent_dequeue_processing d row rest :
  consistent d -> rows (PROCESSING_QUEUE d) = row :: rest ->
  consistent (Tables (VALIDATION_QUEUE d)
                     (Table rest (auto_increment (PROCESSING_QUEUE d))) (BUFFER d)).
Proof.
  intros (Hv & Hp & Hn & Hb & Hrv & Hrp & Hrb) Hrows.
  unfold consistent; simpl.
  split; [done|]. split; [|split; [done|split; [done|split; [done|split; [|done]]]]].
  - apply (table_wf_tail row). rewrite <- Hrows. by rewrite table_eta.
  - rewrite Hrows in Hrp. by apply Forall_cons in Hrp as [_ ?].
Qed.

Lemma consistent_dequeue_validation d row rest :
  consistent d -> rows (VALIDATION_QUEUE d) = row :: rest ->
  consistent (Tables (Table rest (auto_increment (VALIDATION_QUEUE d)))
                     (PROCESSING_QUEUE d) (BUFFER d ++ [(row.1, JOB row.2)])).
Proof.
  intros (Hv & Hp & Hn & Hb & Hrv & Hrp & Hrb) Hrows.
  assert (Hv' : table_wf (Table (row :: rest) (auto_increment (VALIDATION_QUEUE d))))
    by (rewrite <- Hrows; by rewrite table_eta).
  assert (Hfresh : row.1 ∉ ids rest) by (apply sorted_head_fresh, Hv').
  rewrite Hrows in Hb, Hrv.
  unfold consistent; simpl. unfold ids in *. rewrite !fmap_app; simpl.
  split; [by apply (table_wf_tail row)|].
  split; [done|]. split; [|split; [|split; [|split]]].
  - apply NoDup_app. split; [done|]. split; [|apply NoDup_singleton].
    intros x Hx Hx'. apply list_elem_of_singleton in Hx' as ->.
    rewrite Forall_forall in Hb. destruct (Hb _ Hx) as [_ Hnot].
    apply Hnot. simpl. left.
  - apply Forall_app. split.
    + eapply Forall_impl; [exact Hb|]. simpl. intros x [Hlt Hnot]. split; [done|].
      intros Hin. apply Hnot. by right.
    + constructor; [|constructor]. split; [|done].
      destruct Hv' as [_ Hbound]. simpl in Hbound.
      by apply Forall_cons in Hbound as [? _].
  - by apply Forall_cons in Hrv as [_ ?].
  - done.
  - apply Forall_app. split; [done|]. constructor; [|constructor]. simpl.
    by apply Forall_cons in Hrv as [? _].
Qed.

Lemma consistent_promote d j l1 l2 x :
  consistent d -> BUFFER d = l1 ++ (x, j) :: l2 ->
  consistent (Tables (VALIDATION_QUEUE d) (insert_into (PROCESSING_QUEUE d) j) (l1 ++ l2)) /\
  consistent (Tables (VALIDATION_QUEUE d) (PROCESSING_QUEUE d) (l1 ++ l2)).
Proof.
  intros (Hv & Hp & Hn & Hb & Hrv & Hrp & Hrb) Hbuf.
  rewrite Hbuf in Hn, Hb, Hrb. unfold ids in *.
  rewrite fmap_app, fmap_cons in Hn, Hb.
  apply NoDup_app in Hn as (Hn1 & Hn12 & Hn2).
  apply NoDup_cons in Hn2 as [Hx2 Hn2].
  apply Forall_app in Hb as [Hb1 Hb2]. apply Forall_cons in Hb2 as [_ Hb2].
  apply Forall_app in Hrb as [Hrb1 Hrb2]. apply Forall_cons in Hrb2 as [Hj Hrb2].
  assert (Hn' : NoDup (fst <$> l1 ++ l2)).
  { rewrite fmap_app. apply NoDup_app. split; [done|]. split; [|done].
    intros y Hy Hy'. apply (Hn12 y Hy). by right. }
  assert (Hb' : Forall (fun i => i < auto_increment (VALIDATION_QUEUE d)
                                 /\ i ∉ fst <$> rows (VALIDATION_QUEUE d)) (fst <$> l1 ++ l2)).
  { rewrite fmap_app. apply Forall_app. done. }
  assert (Hrb' : Forall (fun r => at_most_one_report r.2) (l1 ++ l2)).
  { apply Forall_app. done. }
  split; unfold consistent; simpl.
  - split; [done|]. split; [by apply table_wf_insert_into|].
    split; [done|]. split; [done|]. split; [done|]. split; [|done].
    apply Forall_app. split; [done|]. constructor; [exact Hj|constructor].
  - done.
Qed.

Lemma consistent_enqueue_validation d vj :
  consistent d -> at_most_one_report (JOB vj) ->
  consistent (INSERT_INTO_VALIDATION_QUEUE vj d).
Proof.
  intros (Hv & Hp & Hn & Hb & Hrv & Hrp & Hrb) Hj.
  unfold consistent, INSERT_INTO_VALIDATION_QUEUE; simpl.
  split; [by apply table_wf_insert_into|]. split; [done|]. split; [done|].
  split; [|split; [|done]].
  - eapply Forall_impl; [exact Hb|]. simpl. intros x [Hlt Hnot]. split; [lia|].
    unfold ids. rewrite fmap_app. apply not_elem_of_app. split; [done|].
    simpl. intros Hin. apply list_elem_of_singleton in Hin. lia.
  - apply Forall_app. split; [done|]. constructor; [exact Hj|constructor].
Qed.
End Preservation.

(** The sibling of [_enqueue_to_processing_queue]: a job with a validation
    model is appended to the validation queue, and nothing else changes. *)
Lemma enqueue_to_validation_queue_appends
    (d : MySQLQueue.tables) (image_id validation_model_id model_id : Z)
    (t : ProcessingModelType) (report_id : Z) (image : bytes) (mask : bool) :
  exists vj,
    MySQLQueue.enqueue_to_validation_queue
      image_id validation_model_id model_id (Processing t) report_id image (Some mask)
      None (idle d)
    = Returned tt (idle (MySQLQueue.INSERT_INTO_VALIDATION_QUEUE vj d)) None /\
    MySQLQueue.VALIDATION_MODEL_ID vj = Some validation_model_id /\
    MySQLQueue.MODEL_ID (MySQLQueue.JOB vj) = model_id /\
    (consistent d -> consistent (MySQLQueue.INSERT_INTO_VALIDATION_QUEUE vj d)).
Proof.
  destruct t; run; eexists; (split; [reflexivity|]); simpl;
    (split; [reflexivity|]); (split; [reflexivity|]);
    intros Hc; apply consistent_enqueue_validation; auto;
    solve [left; reflexivity | right; reflexivity].
Qed.

(** C7: for an id that is not in the buffer, [update_buffer] returns
    without error and leaves every table as it was, for both results and
    wherever the process is killed; from any state, the state after one
    application no longer has the id in the buffer and a second application
    leaves that state as it is. *)
Theorem update_buffer_is_idempotent
    (d : MySQLQueue.tables) (element_id : Z) (validation_result : bool) :
  (element_id ∉ ids (MySQLQueue.BUFFER d) ->
     MySQLQueue.update_buffer element_id validation_result None (idle d)
     = Returned tt (idle d) None /\
     forall k, final (MySQLQueue.update_buffer element_id validation_result (Some k) (idle d))
               = idle d) /\
  exists d1,
    MySQLQueue.update_buffer element_id validation_result None (idle d)
    = Returned tt (idle d1) None /\
    (element_id ∉ ids (MySQLQueue.BUFFER d1)) /\
    MySQLQueue.update_buffer element_id validation_result None (idle d1)
    = Returned tt (idle d1) None.
Proof.
  assert (Hnoop : forall d0, element_id ∉ ids (MySQLQueue.BUFFER d0) ->
     MySQLQueue.update_buffer element_id validation_result None (idle d0)
     = Returned tt (idle d0) None /\
     forall k, final (MySQLQueue.update_buffer element_id validation_result (Some k) (idle d0))
               = idle d0).
  { intros d0 H. run.
    unfold MySQLQueue.INSERT_INTO_PROCESSING_QUEUE_SELECT_FROM_BUFFER, MySQLQueue.DELETE_FROM_BUFFER.
    split; [|intros k; kill_points k]; destruct validation_result; simpl;
      rewrite ?(where_id_absent _ _ H), ?(delete_where_id_absent _ _ H); simpl;
      rewrite ?table_eta, ?tables_eta; try done;
      kill_points k;
      rewrite ?(where_id_absent _ _ H), ?(delete_where_id_absent _ _ H); simpl;
      rewrite ?table_eta, ?tables_eta; done. }
  split; [apply Hnoop|].
  exists (MySQLQueue.DELETE_FROM_BUFFER element_id
            (if validation_result
             then MySQLQueue.INSERT_INTO_PROCESSING_QUEUE_SELECT_FROM_BUFFER element_id d
             else d)).
  assert (Hgone : element_id ∉ ids (MySQLQueue.BUFFER
            (MySQLQueue.DELETE_FROM_BUFFER element_id
               (if validation_result
                then MySQLQueue.INSERT_INTO_PROCESSING_QUEUE_SELECT_FROM_BUFFER element_id d
                else d)))) by apply ids_delete_where_id.
  split; [|split; [exact Hgone|by apply Hnoop]].
  run. destruct validation_result; reflexivity.
Qed.

(** C3: for an id with its one entry [(id, j)] in the buffer,
    [update_buffer id True] appends exactly one row with the columns [j] to
    the processing queue and removes the entry; [update_buffer id False]
    removes the entry and leaves the processing queue as it was; wherever
    the process is killed, the committed state is the one before or the one
    after the whole operation. *)
Theorem update_buffer_promotes_or_drops
    (d : MySQLQueue.tables) (element_id : Z) (j : MySQLQueue.job)
    (l1 l2 : list (Z * MySQLQueue.job)) :
  MySQLQueue.BUFFER d = l1 ++ (element_id, j) :: l2 ->
  element_id ∉ ids l1 -> element_id ∉ ids l2 ->
  let promoted :=
    MySQLQueue.Tables (MySQLQueue.VALIDATION_QUEUE d)
      (Table (rows (MySQLQueue.PROCESSING_QUEUE d)
                ++ [(auto_increment (MySQLQueue.PROCESSING_QUEUE d), j)])
             (auto_increment (MySQLQueue.PROCESSING_QUEUE d) + 1))
      (l1 ++ l2) in
  let dropped :=
    MySQLQueue.Tables (MySQLQueue.VALIDATION_QUEUE d) (MySQLQueue.PROCESSING_QUEUE d)
      (l1 ++ l2) in
  (element_id ∉ ids (l1 ++ l2)) /\
  MySQLQueue.update_buffer element_id true None (idle d) = Returned tt (idle promoted) None /\
  MySQLQueue.update_buffer element_id false None (idle d) = Returned tt (idle dropped) None /\
  (forall k,
      final (MySQLQueue.update_buffer element_id true (Some k) (idle d)) = idle d \/
      final (MySQLQueue.update_buffer element_id true (Some k) (idle d)) = idle promoted) /\
  (forall k,
      final (MySQLQueue.update_buffer element_id false (Some k) (idle d)) = idle d \/
      final (MySQLQueue.update_buffer element_id false (Some k) (idle d)) = idle dropped) /\
  (consistent d -> consistent promoted /\ consistent dropped).
Proof.
  intros Hb H1 H2 promoted dropped.
  assert (Hw : where_id element_id (MySQLQueue.BUFFER d) = [(element_id, j)])
    by (rewrite Hb; by apply where_id_unique).
  assert (Hd : delete_where_id element_id (MySQLQueue.BUFFER d) = l1 ++ l2)
    by (rewrite Hb; by apply delete_where_id_unique).
  split.
  { unfold ids. rewrite fmap_app. apply not_elem_of_app. done. }
  split; [|split; [|split; [|split]]].
  - run. unfold MySQLQueue.INSERT_INTO_PROCESSING_QUEUE_SELECT_FROM_BUFFER,
      MySQLQueue.DELETE_FROM_BUFFER. simpl. rewrite Hw, Hd. reflexivity.
  - run. unfold MySQLQueue.DELETE_FROM_BUFFER. simpl. rewrite Hd. reflexivity.
  - intros k. run.
    unfold MySQLQueue.INSERT_INTO_PROCESSING_QUEUE_SELECT_FROM_BUFFER,
      MySQLQueue.DELETE_FROM_BUFFER.
    kill_points k; simpl; rewrite ?Hw, ?Hd; auto.
  - intros k. run. unfold MySQLQueue.DELETE_FROM_BUFFER.
    kill_points k; simpl; rewrite ?Hw, ?Hd; auto.
  - intros Hc. exact (consistent_promote d j l1 l2 element_id Hc Hb).
Qed.


(** C2: on an empty validation queue [dequeue_from_validation_queue]
    returns [None] and changes nothing.  In every state, when it returns an
    element, that job has left the validation queue and is in the buffer,
    both committed at once: wherever the process is killed the committed
    state is the one before or the one after.  In a consistent state the
    oldest row is returned, the job was in the queue only and is afterwards
    in the buffer only, exactly once, and the state stays consistent. *)
Theorem dequeue_from_validation_queue_moves_job_to_buffer (d : MySQLQueue.tables) :
  (rows (MySQLQueue.VALIDATION_QUEUE d) = [] ->
     MySQLQueue.dequeue_from_validation_queue None (idle d) = Returned None (idle d) None /\
     forall k, final (MySQLQueue.dequeue_from_validation_queue (Some k) (idle d)) = idle d) /\
  (forall e c',
     MySQLQueue.dequeue_from_validation_queue None (idle d) = Returned (Some e) c' None ->
     working c' = committed c' /\
     Queue.id e ∈ ids (rows (MySQLQueue.VALIDATION_QUEUE d)) /\
     (Queue.id e ∉ ids (rows (MySQLQueue.VALIDATION_QUEUE (committed c')))) /\
     Queue.id e ∈ ids (MySQLQueue.BUFFER (committed c')) /\
     forall k,
       final (MySQLQueue.dequeue_from_validation_queue (Some k) (idle d)) = idle d \/
       final (MySQLQueue.dequeue_from_validation_queue (Some k) (idle d)) = c') /\
  (consistent d ->
   forall row rest,
     rows (MySQLQueue.VALIDATION_QUEUE d) = row :: rest ->
     let d' :=
       MySQLQueue.Tables
         (Table rest (auto_increment (MySQLQueue.VALIDATION_QUEUE d)))
         (MySQLQueue.PROCESSING_QUEUE d)
         (MySQLQueue.BUFFER d ++ [(row.1, MySQLQueue.JOB row.2)]) in
     (exists e,
        MySQLQueue.dequeue_from_validation_queue None (idle d)
        = Returned (Some e) (idle d') None /\ Queue.id e = row.1) /\
     (forall k,
        final (MySQLQueue.dequeue_from_validation_queue (Some k) (idle d)) = idle d \/
        final (MySQLQueue.dequeue_from_validation_queue (Some k) (idle d)) = idle d') /\
     (row.1 ∈ ids (rows (MySQLQueue.VALIDATION_QUEUE d)) /\
      row.1 ∉ ids (MySQLQueue.BUFFER d)) /\
      ((row.1 ∉ ids (rows (MySQLQueue.VALIDATION_QUEUE d'))) /\
      where_id row.1 (MySQLQueue.BUFFER d') = [(row.1, MySQLQueue.JOB row.2)]) /\
     consistent d').
Proof.
  split; [|split].
  - intros Hrows.
    assert (E : order_by_id_limit_1 (rows (MySQLQueue.VALIDATION_QUEUE d)) = None)
      by (by apply oldest_None).
    split.
    + run. unfold MySQLQueue.SELECT_FROM_VALIDATION_QUEUE_ORDER_BY_ID_LIMIT_1.
      by rewrite E.
    + intros k. run. unfold MySQLQueue.SELECT_FROM_VALIDATION_QUEUE_ORDER_BY_ID_LIMIT_1.
      kill_points k; rewrite ?E; simpl; auto; kill_points k.
  - intros e c'. run.
    unfold MySQLQueue.SELECT_FROM_VALIDATION_QUEUE_ORDER_BY_ID_LIMIT_1,
      MySQLQueue.DELETE_FROM_VALIDATION_QUEUE,
      MySQLQueue.INSERT_INTO_BUFFER_SELECT_FROM_VALIDATION_QUEUE, delete_from.
    destruct (order_by_id_limit_1 _) as [row|] eqn:E; simpl; [|discriminate].
    destruct (Queue.process_report_id _ _) as [[rid rty]|err] eqn:Hok; simpl; [|discriminate].
    intros [= <- <-]. simpl.
    pose proof (oldest_elem _ _ E) as Hrow.
    assert (Hin : row.1 ∈ ids (rows (MySQLQueue.VALIDATION_QUEUE d))).
    { unfold ids. apply list_elem_of_fmap. by exists row. }
    split; [done|]. split; [done|]. split; [apply ids_delete_where_id|]. split.
    + unfold ids. rewrite fmap_app. apply elem_of_app. right.
      apply list_elem_of_fmap. exists (row.1, MySQLQueue.JOB row.2). split; [done|].
      apply list_elem_of_fmap. exists row. split; [done|]. by apply where_id_elem.
    + intros k. kill_points k; rewrite ?E; simpl; auto; rewrite ?Hok; simpl; auto;
        kill_points k; rewrite ?Hok; simpl; auto.
  - intros Hc row rest Hrows d'.
    pose proof (consistent_dequeue_validation d row rest Hc Hrows) as Hc'. fold d' in Hc'.
    destruct Hc as (Hv & Hp & Hn & Hb & Hrv & Hrp & Hrb).
    assert (Hs : StronglySorted Z.lt (ids (row :: rest)))
      by (rewrite <- Hrows; apply Hv).
    assert (Hfresh : row.1 ∉ ids rest) by (by apply sorted_head_fresh).
    assert (E : order_by_id_limit_1 (rows (MySQLQueue.VALIDATION_QUEUE d)) = Some row)
      by (rewrite Hrows; by apply oldest_is_first).
    assert (Hw : where_id row.1 (rows (MySQLQueue.VALIDATION_QUEUE d)) = [row]).
    { rewrite Hrows. destruct row as [i vj].
      apply (where_id_unique i vj [] rest); [apply not_elem_of_nil|done]. }
    assert (Hd : delete_where_id row.1 (rows (MySQLQueue.VALIDATION_QUEUE d)) = rest).
    { rewrite Hrows. destruct row as [i vj].
      apply (delete_where_id_unique i vj [] rest); [apply not_elem_of_nil|done]. }
    assert (Hone : at_most_one_report (MySQLQueue.JOB row.2)).
    { rewrite Hrows in Hrv. by apply Forall_cons in Hrv as [? _]. }
    destruct (process_report_id_ok _ Hone) as (rid & rty & Hok).
    assert (Hin : row.1 ∈ ids (rows (MySQLQueue.VALIDATION_QUEUE d))).
    { rewrite Hrows. unfold ids. rewrite fmap_cons. left. }
    assert (Hout : row.1 ∉ ids (MySQLQueue.BUFFER d)).
    { intros Hx. rewrite Forall_forall in Hb. destruct (Hb _ Hx) as [_ Hnot]. by apply Hnot. }
    split; [|split; [|split; [|split]]].
    + eexists. split.
      * run. unfold MySQLQueue.SELECT_FROM_VALIDATION_QUEUE_ORDER_BY_ID_LIMIT_1.
        rewrite E. simpl. rewrite Hok. simpl.
        unfold MySQLQueue.DELETE_FROM_VALIDATION_QUEUE,
          MySQLQueue.INSERT_INTO_BUFFER_SELECT_FROM_VALIDATION_QUEUE, delete_from. simpl.
        rewrite Hw, Hd. reflexivity.
      * reflexivity.
    + intros k. run.
      unfold MySQLQueue.SELECT_FROM_VALIDATION_QUEUE_ORDER_BY_ID_LIMIT_1,
        MySQLQueue.DELETE_FROM_VALIDATION_QUEUE,
        MySQLQueue.INSERT_INTO_BUFFER_SELECT_FROM_VALIDATION_QUEUE, delete_from.
      kill_points k; rewrite ?E; simpl; auto; rewrite ?Hok; simpl; rewrite ?Hw, ?Hd; auto;
        kill_points k; rewrite ?Hok; simpl; rewrite ?Hw, ?Hd; auto.
    + done.
    + split; [done|]. simpl. rewrite where_id_app, (where_id_absent _ _ Hout). simpl.
      unfold where_id. rewrite filter_cons_True by done. done.
    + exact Hc'.
Qed.

Lemma dequeue_from_processing_queue_oldest (d : MySQLQueue.tables) row rest :
  consistent d ->
  rows (MySQLQueue.PROCESSING_QUEUE d) = row :: rest ->
  exists e,
    carries e row /\
    MySQLQueue.dequeue_from_processing_queue None (idle d)
    = Returned (Some e)
        (idle (MySQLQueue.Tables (MySQLQueue.VALIDATION_QUEUE d)
                 (Table rest (auto_increment (MySQLQueue.PROCESSING_QUEUE d)))
                 (MySQLQueue.BUFFER d)))
        None.
Proof.
  intros (Hv & Hp & Hn & Hb & Hrv & Hrp & Hrb) Hrows.
  assert (Hs : StronglySorted Z.lt (ids (row :: rest))) by (rewrite <- Hrows; apply Hp).
  assert (Hfresh : row.1 ∉ ids rest) by (by apply sorted_head_fresh).
  assert (E : order_by_id_limit_1 (rows (MySQLQueue.PROCESSING_QUEUE d)) = Some row)
    by (rewrite Hrows; by apply oldest_is_first).
  assert (Hd : delete_where_id row.1 (rows (MySQLQueue.PROCESSING_QUEUE d)) = rest).
  { rewrite Hrows. destruct row as [i j].
    apply (delete_where_id_unique i j [] rest); [apply not_elem_of_nil|done]. }
  assert (Hone : at_most_one_report row.2).
  { rewrite Hrows in Hrp. by apply Forall_cons in Hrp as [? _]. }
  destruct (process_report_id_ok _ Hone) as (rid & rty & Hok).
  exists (Queue.mkQueueElement row.1 (Some (MySQLQueue.MODEL_ID row.2)) rid rty
            (MySQLQueue.IMAGE row.2) (MySQLQueue.GENERATE_MASK row.2)).
  split; [by repeat split|].
  run. unfold MySQLQueue.SELECT_FROM_PROCESSING_QUEUE_ORDER_BY_ID_LIMIT_1.
  rewrite E. simpl. rewrite Hok. simpl.
  unfold MySQLQueue.DELETE_FROM_PROCESSING_QUEUE, delete_from. simpl.
  rewrite Hd. reflexivity.
Qed.

Lemma drain_processing_queue_in_order (l : list (Z * MySQLQueue.job)) :
  forall d : MySQLQueue.tables,
    consistent d ->
    rows (MySQLQueue.PROCESSING_QUEUE d) = l ->
    exists es,
      Forall2 carries es l /\
      drain_processing_queue (length l) None (idle d)
      = Returned es
          (idle (MySQLQueue.Tables (MySQLQueue.VALIDATION_QUEUE d)
                   (Table [] (auto_increment (MySQLQueue.PROCESSING_QUEUE d)))
                   (MySQLQueue.BUFFER d)))
          None.
Proof.
  induction l as [|row rest IH]; intros d Hc Hrows.
  - exists []. split; [constructor|]. simpl. rewrite <- Hrows.
    rewrite table_eta, tables_eta. reflexivity.
  - destruct (dequeue_from_processing_queue_oldest d row rest Hc Hrows) as (e & He & Hrun).
    pose proof (consistent_dequeue_processing d row rest Hc Hrows) as Hc'.
    destruct (IH _ Hc' eq_refl) as (es & Hes & Hdrain). simpl in Hdrain.
    exists (e :: es). split; [by constructor|].
    simpl. unfold mbind at 1, M_bind at 1. rewrite Hrun.
    unfold mbind at 1, M_bind at 1. rewrite Hdrain. reflexivity.
Qed.

(** C5: on an empty processing queue [dequeue_from_processing_queue]
    returns [None] and changes nothing.  In every state a returned element
    carries the row of smallest ID, which is then gone.  In a consistent
    state that row is the one inserted first, only it is removed, and
    draining the queue after inserting the jobs [js] yields the waiting
    jobs and then [js], in insertion order. *)
Theorem dequeue_from_processing_queue_is_fifo (d : MySQLQueue.tables) :
  (rows (MySQLQueue.PROCESSING_QUEUE d) = [] ->
     MySQLQueue.dequeue_from_processing_queue None (idle d) = Returned None (idle d) None /\
     forall k, final (MySQLQueue.dequeue_from_processing_queue (Some k) (idle d)) = idle d) /\
  (forall e c',
     MySQLQueue.dequeue_from_processing_queue None (idle d) = Returned (Some e) c' None ->
     exists row,
       row ∈ rows (MySQLQueue.PROCESSING_QUEUE d) /\
       carries e row /\
       Forall (fun r => row.1 <= r.1) (rows (MySQLQueue.PROCESSING_QUEUE d)) /\
       (row.1 ∉ ids (rows (MySQLQueue.PROCESSING_QUEUE (committed c'))))) /\
  (consistent d ->
   forall row rest,
     rows (MySQLQueue.PROCESSING_QUEUE d) = row :: rest ->
     Forall (fun r => row.1 < r.1) rest /\
     exists e,
       carries e row /\
       MySQLQueue.dequeue_from_processing_queue None (idle d)
       = Returned (Some e)
           (idle (MySQLQueue.Tables (MySQLQueue.VALIDATION_QUEUE d)
                    (Table rest (auto_increment (MySQLQueue.PROCESSING_QUEUE d)))
                    (MySQLQueue.BUFFER d)))
           None) /\
  (consistent d ->
   forall js : list MySQLQueue.job,
     Forall at_most_one_report js ->
     let enqueued := insert_select (MySQLQueue.PROCESSING_QUEUE d) js in
     exists es,
       drain_processing_queue (length (rows enqueued)) None
         (idle (MySQLQueue.Tables (MySQLQueue.VALIDATION_QUEUE d) enqueued
                                  (MySQLQueue.BUFFER d)))
       = Returned es
           (idle (MySQLQueue.Tables (MySQLQueue.VALIDATION_QUEUE d)
                    (Table [] (auto_increment enqueued)) (MySQLQueue.BUFFER d)))
           None /\
       Forall2 carries es (rows enqueued) /\
       snd <$> rows enqueued = (snd <$> rows (MySQLQueue.PROCESSING_QUEUE d)) ++ js).
Proof.
  split; [|split; [|split]].
  - intros Hrows.
    assert (E : order_by_id_limit_1 (rows (MySQLQueue.PROCESSING_QUEUE d)) = None)
      by (by apply oldest_None).
    split.
    + run. unfold MySQLQueue.SELECT_FROM_PROCESSING_QUEUE_ORDER_BY_ID_LIMIT_1.
      by rewrite E.
    + intros k. run. unfold MySQLQueue.SELECT_FROM_PROCESSING_QUEUE_ORDER_BY_ID_LIMIT_1.
      kill_points k; rewrite ?E; simpl; auto; kill_points k.
  - intros e c'. run.
    unfold MySQLQueue.SELECT_FROM_PROCESSING_QUEUE_ORDER_BY_ID_LIMIT_1,
      MySQLQueue.DELETE_FROM_PROCESSING_QUEUE, delete_from.
    destruct (order_by_id_limit_1 _) as [row|] eqn:E; simpl; [|discriminate].
    destruct (Queue.process_report_id _ _) as [[rid rty]|err] eqn:Hok; simpl; [|discriminate].
    intros [= <- <-]. simpl. exists row.
    split; [by apply oldest_elem|]. split; [by repeat split|].
    split; [by apply oldest_least|apply ids_delete_where_id].
  - intros Hc row rest Hrows. split.
    + destruct Hc as (_ & [Hs _] & _). rewrite Hrows in Hs.
      unfold ids in Hs. rewrite fmap_cons in Hs.
      apply StronglySorted_cons in Hs as [Hall _].
      rewrite Forall_forall in Hall. apply Forall_forall. intros r Hr.
      apply Hall. apply list_elem_of_fmap. by exists r.
    + by apply dequeue_from_processing_queue_oldest.
  - intros Hc js Hjs enqueued.
    assert (Hc' : consistent (MySQLQueue.Tables (MySQLQueue.VALIDATION_QUEUE d) enqueued
                                (MySQLQueue.BUFFER d))).
    { destruct Hc as (Hv & Hp & Hn & Hb & Hrv & Hrp & Hrb).
      unfold consistent; simpl.
      split; [done|]. split; [by apply table_wf_insert_select|].
      split; [done|]. split; [done|]. split; [done|]. split; [|done].
      assert (Hjobs : Forall at_most_one_report (snd <$> rows enqueued)).
      { unfold enqueued. rewrite insert_select_jobs.
        apply Forall_app. split; [|done]. apply Forall_forall. intros j Hj.
        apply list_elem_of_fmap in Hj as (r & -> & Hr).
        rewrite Forall_forall in Hrp. by apply Hrp. }
      apply Forall_forall. intros r Hr. rewrite Forall_forall in Hjobs.
      apply Hjobs. apply list_elem_of_fmap. by exists r. }
    destruct (drain_processing_queue_in_order _ _ Hc' eq_refl) as (es & Hes & Hdrain).
    exists es. split; [exact Hdrain|]. split; [exact Hes|]. apply insert_select_jobs.
Qed.

Ltac run_ingestion :=
  unfold enqueue_report, enabled_model, on_database, on_storage, on_queue, on,
    MySQLDatabase.insert_image, MySQLDatabase.insert_classification_report,
    MySQLDatabase.insert_segmentation_report, MySQLDatabase.on_connection,
    MySQLStorage.store_image; run.

(** The precondition that ingestion does check before it writes. *)
Lemma enqueue_report_type_mismatch_writes_nothing
    (w : interfaces) (m : Model) user_id filename image processing_model_id
    processing_model_type generate_mask validation_model_id budget :
  MySQLDatabase.enabled_models (database w) !! processing_model_id = Some m ->
  processing_model_type <> type m ->
  enqueue_report user_id filename image processing_model_id processing_model_type
                 generate_mask validation_model_id budget w
  = Raised (ValueError ("Model type mismatch: " +:+ str_ModelType processing_model_type
                         +:+ " expected, " +:+ str_ModelType (type m) +:+ " found")) w.
Proof.
  intros Hm Hne. unfold enqueue_report, enabled_model, mbind, M_bind, raise.
  rewrite Hm. by rewrite bool_decide_eq_true_2.
Qed.

Lemma enqueue_report_mask_for_classifier
    (db : MySQLDatabase.tables) (models : gmap Z Model) (q : MySQLQueue.tables)
    (st : MySQLStorage.tables) (m : Model)
    user_id filename image processing_model_id validation_model_id :
  models !! processing_model_id = Some m ->
  type m = Processing CLASSIFICATION ->
  enqueue_report user_id filename image processing_model_id (Processing CLASSIFICATION)
                 true validation_model_id None
                 (Interfaces (MySQLDatabase.State (idle db) models) (idle q) (idle st))
  = Raised (ValueError "Classification models do not generate masks")
      (Interfaces
         (MySQLDatabase.State
            (idle (MySQLDatabase.Tables
                     (insert_into (MySQLDatabase.IMAGE db)
                                  (MySQLDatabase.ImageRow user_id filename))
                     (MySQLDatabase.CLASSIFICATION_REPORT db)
                     (MySQLDatabase.SEGMENTATION_REPORT db)))
            models)
         (idle q)
         (idle (MySQLStorage.Tables
                  (MySQLStorage.IMAGE st
                     ++ [(auto_increment (MySQLDatabase.IMAGE db), image)])))).
Proof.
  intros Hm Hty. run_ingestion. rewrite Hm. simpl. rewrite Hty. simpl. reflexivity.
Qed.

(** C6: ingestion of a CLASSIFICATION job with [generate_mask = True] on a
    fresh installation raises "Classification models do not generate
    masks" only after the IMAGE row and the image bytes have been
    committed; no report and no queue row is written. *)
Theorem enqueue_report_rejects_mask_after_storing_image :
  exists w',
    enqueue_report 7 "leaf.jpg" [] 1 (Processing CLASSIFICATION) true None None Examples.fresh_install
    = Raised (ValueError "Classification models do not generate masks") w' /\
    rows (MySQLDatabase.IMAGE (committed (MySQLDatabase.connection (database w'))))
    = [(1, MySQLDatabase.ImageRow 7 "leaf.jpg")] /\
    MySQLStorage.IMAGE (committed (storage w')) = [(1, [])] /\
    rows (MySQLDatabase.CLASSIFICATION_REPORT
            (committed (MySQLDatabase.connection (database w')))) = [] /\
    queue w' = idle MySQLQueue.empty.
Proof.
  eexists. split.
  - unfold Examples.fresh_install.
    apply (enqueue_report_mask_for_classifier _ _ _ _ Examples.leaf_classifier); reflexivity.
  - simpl. done.
Qed.

(** ** Instances on concrete states *)

Lemma consistent_worked : consistent Examples.worked.
Proof. compute_done. Qed.

Section SeverityInstance.
#[local] Set Warnings "-inexact-float".
Lemma ratio_to_severity_buckets_witness :
  (0.05 <? 0.08)%float = true /\ (0.08 <=? 0.1)%float = true /\
  Segmentation._ratio_to_severity 0.08 = 2.
Proof.
  split; [reflexivity|]. split; [reflexivity|].
  destruct (ratio_to_severity_buckets 0.08) as (_ & _ & H & _).
  apply H; reflexivity.
Defined.

(** One stress pixel among twenty leaf and stress pixels: the ratio the
    wrapper computes and returns is the [float32] value
    0.05000000074505806, a real number above 0.05 and not above 0.1, and
    the severity it returns with it is 1, where the buckets over the real
    numbers give 2, as the body run on the returned Python [float] does. *)
Lemma one_stress_pixel_in_twenty_has_severity_1 :
  Segmentation._get_stress_ratio_and_severity (MoreExamples.pixels 1 19)
  = (0.05000000074505806%float, 1) /\
  (5 # 100 < real_value (Prim2SF 0.05000000074505806))%Q /\
  (real_value (Prim2SF 0.05000000074505806) <= 1 # 10)%Q /\
  Segmentation._ratio_to_severity 0.05000000074505806 = 2.
Proof. vm_compute. repeat split; discriminate. Qed.

Lemma ratio_to_severity_rounds_thresholds_to_argument_witness :
  Float32.is_number (Float32.div (Float32.of_int64 2) (Float32.of_int64 25)) = true /\
  (13421773 # 268435456
   < real_value (Float32.div (Float32.of_int64 2) (Float32.of_int64 25)))%Q /\
  (real_value (Float32.div (Float32.of_int64 2) (Float32.of_int64 25))
   <= 13421773 # 134217728)%Q /\
  Segmentation.Tensor._ratio_to_severity
    (Float32.div (Float32.of_int64 2) (Float32.of_int64 25)) = 2.
Proof.
  assert (Hlt : (13421773 # 268435456
                 < real_value (Float32.div (Float32.of_int64 2) (Float32.of_int64 25)))%Q)
    by (vm_compute; reflexivity).
  assert (Hle : (real_value (Float32.div (Float32.of_int64 2) (Float32.of_int64 25))
                 <= 13421773 # 134217728)%Q)
    by (vm_compute; discriminate).
  split; [reflexivity|]. split; [exact Hlt|]. split; [exact Hle|].
  destruct (ratio_to_severity_rounds_thresholds_to_argument
              (Float32.div (Float32.of_int64 2) (Float32.of_int64 25)))
    as (_ & _ & _ & _ & H & _).
  destruct (H eq_refl) as (_ & _ & H2 & _).
  apply H2. split; [exact Hlt|exact Hle].
Defined.
End SeverityInstance.

Lemma validation_dequeue_returns_validation_model_witness :
  exists row,
    row ∈ rows (MySQLQueue.VALIDATION_QUEUE Examples.worked) /\
    MySQLQueue.GENERATE_MASK (MySQLQueue.JOB row.2) = Some true /\
    MySQLQueue.MODEL_ID (MySQLQueue.JOB row.2) = 4 /\
    (row.1, MySQLQueue.JOB row.2)
      ∈ MySQLQueue.BUFFER
          (committed (final (MySQLQueue.dequeue_from_validation_queue
                               None (idle Examples.worked)))).
Proof.
  destruct (validation_dequeue_returns_validation_model
              (idle Examples.worked)
              (final (MySQLQueue.dequeue_from_validation_queue None (idle Examples.worked)))
              None None
              (Queue.mkQueueElement 2 (Some 7) (Some 200) SEGMENTATION
                                    [Byte.x89; Byte.x50] (Some false))
              eq_refl) as (row & Hin & Hid & Hmodel & Hmask & Hbuf).
  exists row. split; [exact Hin|].
  assert (row = (2, MySQLQueue.ValidationJob (Some 7) Examples.segmentation_job)) as ->.
  { simpl in Hin, Hid. apply elem_of_cons in Hin as [->|Hin]; [done|].
    apply list_elem_of_singleton in Hin as ->. discriminate. }
  split; [reflexivity|]. split; [reflexivity|]. exact Hbuf.
Defined.

Lemma update_buffer_is_idempotent_witness :
  (9 ∉ ids (MySQLQueue.BUFFER Examples.worked)) /\
  MySQLQueue.update_buffer 9 true None (idle Examples.worked)
  = Returned tt (idle Examples.worked) None.
Proof.
  assert (H : 9 ∉ ids (MySQLQueue.BUFFER Examples.worked)) by compute_done.
  split; [exact H|].
  apply (proj1 (update_buffer_is_idempotent Examples.worked 9 true) H).
Defined.

Lemma update_buffer_promotes_or_drops_witness :
  MySQLQueue.update_buffer 1 true None (idle Examples.worked)
  = Returned tt
      (idle (MySQLQueue.Tables
               (MySQLQueue.VALIDATION_QUEUE Examples.worked)
               (Table [(1, Examples.classification_job); (2, Examples.segmentation_job);
                       (3, Examples.segmentation_job)] 4)
               []))
      None.
Proof.
  apply (update_buffer_promotes_or_drops Examples.worked 1 Examples.segmentation_job [] []);
    [reflexivity | apply not_elem_of_nil | apply not_elem_of_nil].
Defined.

Lemma dequeue_from_validation_queue_moves_job_to_buffer_witness :
  consistent Examples.worked /\
  exists e,
    MySQLQueue.dequeue_from_validation_queue None (idle Examples.worked)
    = Returned (Some e)
        (idle (MySQLQueue.Tables
                 (Table [(3, MySQLQueue.ValidationJob (Some 7) Examples.classification_job)] 4)
                 (MySQLQueue.PROCESSING_QUEUE Examples.worked)
                 [(1, Examples.segmentation_job); (2, Examples.segmentation_job)]))
        None /\
    Queue.id e = 2.
Proof.
  split; [exact consistent_worked|].
  apply (proj2 (proj2 (dequeue_from_validation_queue_moves_job_to_buffer Examples.worked))
               consistent_worked
               (2, MySQLQueue.ValidationJob (Some 7) Examples.segmentation_job)
               [(3, MySQLQueue.ValidationJob (Some 7) Examples.classification_job)]
               eq_refl).
Defined.

Lemma dequeue_from_processing_queue_is_fifo_witness :
  consistent Examples.worked /\
  exists e,
    carries e (1, Examples.classification_job) /\
    MySQLQueue.dequeue_from_processing_queue None (idle Examples.worked)
    = Returned (Some e)
        (idle (MySQLQueue.Tables
                 (MySQLQueue.VALIDATION_QUEUE Examples.worked)
                 (Table [(2, Examples.segmentation_job)] 3)
                 (MySQLQueue.BUFFER Examples.worked)))
        None.
Proof.
  split; [exact consistent_worked|].
  apply (proj1 (proj2 (proj2 (dequeue_from_processing_queue_is_fifo Examples.worked)))
               consistent_worked
               (1, Examples.classification_job) [(2, Examples.segmentation_job)] eq_refl).
Defined.

(** * Further properties *)

(** ** Further properties of the queue *)

Ltac kill_points_deep k :=
  destruct k as [|[|[|[|[|[|[|[|[|[|[|k]]]]]]]]]]]; simpl; auto.

Ltac run_polling :=
  unfold MySQLQueue.processing_queue_has_elements, MySQLQueue.validation_queue_has_elements,
    MySQLQueue.SELECT_COUNT_FROM_PROCESSING_QUEUE, MySQLQueue.SELECT_COUNT_FROM_VALIDATION_QUEUE;
  run.

Section FilterFacts.
Context {R : Type}.
Implicit Types (l : list (Z * R)) (x i : Z).

Lemma ids_delete_where_id_elem x i l : i ∈ ids (delete_where_id x l) -> i ∈ ids l.
Proof.
  unfold ids, delete_where_id. intros H.
  apply list_elem_of_fmap in H as (r & -> & Hr).
  apply list_elem_of_filter in Hr as [_ Hr].
  apply list_elem_of_fmap. by exists r.
Qed.

Lemma NoDup_delete_where_id x l : NoDup (ids l) -> NoDup (ids (delete_where_id x l)).
Proof.
  unfold ids. induction l as [|r l IH]; simpl; [done|].
  intros Hn. apply NoDup_cons in Hn as [Hr Hn].
  unfold delete_where_id. destruct (decide (r.1 <> x)) as [Hne|He].
  - rewrite filter_cons_True by done. simpl. apply NoDup_cons. split; [|by apply IH].
    intros Hin. apply Hr. by apply (ids_delete_where_id_elem x).
  - rewrite filter_cons_False by done. by apply IH.
Qed.

Lemma sorted_delete_where_id x l :
  StronglySorted Z.lt (ids l) -> StronglySorted Z.lt (ids (delete_where_id x l)).
Proof.
  unfold ids. induction l as [|r l IH]; simpl; [done|].
  intros Hs. apply StronglySorted_cons in Hs as [Hall Hs].
  unfold delete_where_id. destruct (decide (r.1 <> x)) as [Hne|He].
  - rewrite filter_cons_True by done. simpl. apply StronglySorted_cons. split; [|by apply IH].
    rewrite Forall_forall in Hall. apply Forall_forall. intros i Hi.
    apply Hall. by apply (ids_delete_where_id_elem x).
  - rewrite filter_cons_False by done. by apply IH.
Qed.

Lemma Forall_delete_where_id (P : Z * R -> Prop) x l :
  Forall P l -> Forall P (delete_where_id x l).
Proof.
  rewrite !Forall_forall. intros H r Hr. apply H.
  unfold delete_where_id in Hr. by apply list_elem_of_filter in Hr as [_ ?].
Qed.

Lemma Forall_ids_delete_where_id (P : Z -> Prop) x l :
  Forall P (ids l) -> Forall P (ids (delete_where_id x l)).
Proof.
  rewrite !Forall_forall. intros H i Hi. apply H. by apply (ids_delete_where_id_elem x).
Qed.

Lemma table_wf_delete_from x (t : table R) : table_wf t -> table_wf (delete_from x t).
Proof.
  unfold table_wf, delete_from; simpl. intros [Hs Hb]. split.
  - by apply sorted_delete_where_id.
  - by apply Forall_ids_delete_where_id.
Qed.

Lemma sorted_rows_head (t : table R) (row : Z * R) :
  table_wf t -> order_by_id_limit_1 (rows t) = Some row ->
  exists rest, rows t = row :: rest /\ where_id row.1 (rows t) = [row]
               /\ delete_where_id row.1 (rows t) = rest.
Proof.
  intros [Hs _] E. destruct (rows t) as [|r0 rest] eqn:Hrows; [discriminate|].
  rewrite (oldest_is_first r0 rest Hs) in E. injection E as <-.
  exists rest. split; [done|].
  assert (Hfresh : r0.1 ∉ ids rest) by (by apply sorted_head_fresh).
  destruct r0 as [i a]. split.
  - apply (where_id_unique i a [] rest); [apply not_elem_of_nil|done].
  - apply (delete_where_id_unique i a [] rest); [apply not_elem_of_nil|done].
Qed.
End FilterFacts.

Section StatementsKeepConsistency.
Import MySQLQueue.

Lemma consistent_DELETE_FROM_BUFFER x d :
  consistent d -> consistent (DELETE_FROM_BUFFER x d).
Proof.
  intros (Hv & Hp & Hn & Hb & Hrv & Hrp & Hrb).
  unfold consistent, DELETE_FROM_BUFFER; simpl.
  split; [done|]. split; [done|]. split; [by apply NoDup_delete_where_id|].
  split; [by apply Forall_ids_delete_where_id|]. split; [done|]. split; [done|].
  by apply Forall_delete_where_id.
Qed.

Lemma consistent_INSERT_INTO_PROCESSING_QUEUE_SELECT_FROM_BUFFER x d :
  consistent d -> consistent (INSERT_INTO_PROCESSING_QUEUE_SELECT_FROM_BUFFER x d).
Proof.
  intros (Hv & Hp & Hn & Hb & Hrv & Hrp & Hrb).
  unfold consistent, INSERT_INTO_PROCESSING_QUEUE_SELECT_FROM_BUFFER; simpl.
  split; [done|]. split; [by apply table_wf_insert_select|].
  split; [done|]. split; [done|]. split; [done|]. split; [|done].
  apply Forall_forall. intros r Hr.
  assert (Hj : r.2 ∈ snd <$> rows (insert_select (PROCESSING_QUEUE d)
                                     (snd <$> where_id x (BUFFER d))))
    by (apply list_elem_of_fmap; by exists r).
  rewrite insert_select_jobs in Hj. apply elem_of_app in Hj as [Hj|Hj].
  - apply list_elem_of_fmap in Hj as (r' & -> & Hr').
    rewrite Forall_forall in Hrp. by apply Hrp.
  - apply list_elem_of_fmap in Hj as (r' & -> & Hr').
    apply where_id_elem in Hr' as [_ Hr'].
    rewrite Forall_forall in Hrb. by apply Hrb.
Qed.

Lemma consistent_DELETE_FROM_PROCESSING_QUEUE x d :
  consistent d -> consistent (DELETE_FROM_PROCESSING_QUEUE x d).
Proof.
  intros (Hv & Hp & Hn & Hb & Hrv & Hrp & Hrb).
  unfold consistent, DELETE_FROM_PROCESSING_QUEUE; simpl.
  split; [done|]. split; [by apply table_wf_delete_from|].
  split; [done|]. split; [done|]. split; [done|]. split; [|done].
  by apply Forall_delete_where_id.
Qed.

Lemma consistent_move_to_buffer d row :
  consistent d ->
  order_by_id_limit_1 (rows (VALIDATION_QUEUE d)) = Some row ->
  consistent (DELETE_FROM_VALIDATION_QUEUE row.1
                (INSERT_INTO_BUFFER_SELECT_FROM_VALIDATION_QUEUE row.1 d)).
Proof.
  intros Hc E.
  destruct (sorted_rows_head _ _ (proj1 Hc) E) as (rest & Hrows & Hw & Hd).
  unfold DELETE_FROM_VALIDATION_QUEUE, INSERT_INTO_BUFFER_SELECT_FROM_VALIDATION_QUEUE,
    delete_from; simpl.
  rewrite Hw, Hd. simpl. by apply consistent_dequeue_validation.
Qed.
End StatementsKeepConsistency.

Section FinalStates.
Import MySQLQueue.

Lemma update_buffer_final d element_id validation_result budget :
  final (update_buffer element_id validation_result budget (idle d)) = idle d \/
  final (update_buffer element_id validation_result budget (idle d))
  = idle (DELETE_FROM_BUFFER element_id
            (if validation_result
             then INSERT_INTO_PROCESSING_QUEUE_SELECT_FROM_BUFFER element_id d
             else d)).
Proof.
  run. destruct validation_result; destruct budget as [k|]; simpl; auto; kill_points k.
Qed.

Lemma dequeue_from_processing_queue_final d budget :
  final (dequeue_from_processing_queue budget (idle d)) = idle d \/
  exists row,
    order_by_id_limit_1 (rows (PROCESSING_QUEUE d)) = Some row /\
    final (dequeue_from_processing_queue budget (idle d))
    = idle (DELETE_FROM_PROCESSING_QUEUE row.1 d).
Proof.
  run. unfold SELECT_FROM_PROCESSING_QUEUE_ORDER_BY_ID_LIMIT_1.
  destruct (order_by_id_limit_1 (rows (PROCESSING_QUEUE d))) as [row|] eqn:E.
  - destruct (Queue.process_report_id (CLASSIFICATION_REPORT_ID row.2)
                                      (SEGMENTATION_REPORT_ID row.2)) as [[rid rty]|err] eqn:Hok;
      destruct budget as [k|]; simpl; rewrite ?E; simpl; rewrite ?Hok; simpl; eauto;
      kill_points k; rewrite ?E; simpl; eauto; try (kill_points k); rewrite ?Hok; simpl; eauto.
  - destruct budget as [k|]; simpl; rewrite ?E; simpl; auto;
      kill_points k; rewrite ?E; simpl; auto; try (kill_points k).
Qed.

Lemma dequeue_from_validation_queue_final d budget :
  final (dequeue_from_validation_queue budget (idle d)) = idle d \/
  exists row,
    order_by_id_limit_1 (rows (VALIDATION_QUEUE d)) = Some row /\
    final (dequeue_from_validation_queue budget (idle d))
    = idle (DELETE_FROM_VALIDATION_QUEUE row.1
              (INSERT_INTO_BUFFER_SELECT_FROM_VALIDATION_QUEUE row.1 d)).
Proof.
  run. unfold SELECT_FROM_VALIDATION_QUEUE_ORDER_BY_ID_LIMIT_1.
  destruct (order_by_id_limit_1 (rows (VALIDATION_QUEUE d))) as [row|] eqn:E.
  - destruct (Queue.process_report_id (CLASSIFICATION_REPORT_ID (JOB row.2))
                                      (SEGMENTATION_REPORT_ID (JOB row.2)))
      as [[rid rty]|err] eqn:Hok;
      destruct budget as [k|]; simpl; rewrite ?E; simpl; rewrite ?Hok; simpl; eauto;
      kill_points k; rewrite ?E; simpl; eauto; try (kill_points k); rewrite ?Hok; simpl; eauto.
  - destruct budget as [k|]; simpl; rewrite ?E; simpl; auto;
      kill_points k; rewrite ?E; simpl; auto; try (kill_points k).
Qed.

Lemma _enqueue_final
    (vmid : option Z)
    image_id model_id model_type report_id image generate_mask d budget
    (m : M state unit) :
  m = _enqueue_to_processing_queue image_id model_id model_type report_id image generate_mask
      /\ vmid = None \/
  (exists v, m = _enqueue_to_validation_queue image_id v model_id model_type report_id image
                                              generate_mask /\ vmid = Some v) ->
  final (m budget (idle d)) = idle d \/
  exists t,
    model_type = Processing t /\
    final (m budget (idle d))
    = idle (INSERT_INTO_VALIDATION_QUEUE
              (ValidationJob vmid
                 (Job image_id model_id
                      (if t is CLASSIFICATION then Some report_id else None)
                      (if t is CLASSIFICATION then None else Some report_id)
                      image generate_mask)) d).
Proof.
  intros [[-> ->]|(v & -> & ->)]; run;
    destruct model_type as [[]|[]]; simpl; auto;
    destruct budget as [k|]; simpl; eauto; kill_points k; eauto.
Qed.
End FinalStates.

(** X4: the empty tables are consistent and every method of the MySQL queue
    keeps the invariant, for all arguments, whether it returns, raises or
    the process is killed at any round trip. *)
Theorem queue_methods_keep_consistent :
  consistent MySQLQueue.empty /\
  (forall image_id model_id model_type report_id image generate_mask,
      keeps_consistent (MySQLQueue.enqueue_to_processing_queue
                          image_id model_id model_type report_id image generate_mask)) /\
  (forall image_id validation_model_id model_id model_type report_id image generate_mask,
      keeps_consistent (MySQLQueue.enqueue_to_validation_queue
                          image_id validation_model_id model_id model_type report_id image
                          generate_mask)) /\
  keeps_consistent MySQLQueue.dequeue_from_processing_queue /\
  keeps_consistent MySQLQueue.dequeue_from_validation_queue /\
  (forall element_id validation_result,
      keeps_consistent (MySQLQueue.update_buffer element_id validation_result)) /\
  keeps_consistent MySQLQueue.processing_queue_has_elements /\
  keeps_consistent MySQLQueue.validation_queue_has_elements.
Proof.
  split; [exact consistent_empty|].
  assert (Henq : forall (vmid : option Z) image_id model_id model_type report_id image
                        generate_mask (m : M MySQLQueue.state unit),
             (m = MySQLQueue._enqueue_to_processing_queue
                    image_id model_id model_type report_id image generate_mask
              /\ vmid = None \/
              (exists v, m = MySQLQueue._enqueue_to_validation_queue
                               image_id v model_id model_type report_id image generate_mask
                         /\ vmid = Some v)) ->
             keeps_consistent m).
  { intros vmid image_id model_id model_type report_id image generate_mask m Hm d budget Hc.
    destruct (_enqueue_final vmid image_id model_id model_type report_id image
                generate_mask d budget m Hm) as [->|(t & -> & ->)]; [by exists d|].
    eexists. split; [reflexivity|]. apply consistent_enqueue_validation; [done|].
    destruct t; [right|left]; reflexivity. }
  split; [|split; [|split; [|split; [|split; [|split]]]]].
  - intros image_id model_id model_type report_id image generate_mask d budget Hc.
    unfold MySQLQueue.enqueue_to_processing_queue, Queue.enqueue_to_processing_queue.
    destruct (_ && _); [by exists d|].
    eapply (Henq None); [left; split; reflexivity|done].
  - intros image_id validation_model_id model_id model_type report_id image generate_mask
           d budget Hc.
    unfold MySQLQueue.enqueue_to_validation_queue, Queue.enqueue_to_validation_queue.
    destruct (_ && _); [by exists d|].
    eapply (Henq (Some validation_model_id)); [right; eexists; split; reflexivity|done].
  - intros d budget Hc.
    destruct (dequeue_from_processing_queue_final d budget) as [->|(row & _ & ->)];
      [by exists d|].
    eexists. split; [reflexivity|]. by apply consistent_DELETE_FROM_PROCESSING_QUEUE.
  - intros d budget Hc.
    destruct (dequeue_from_validation_queue_final d budget) as [->|(row & E & ->)];
      [by exists d|].
    eexists. split; [reflexivity|]. by apply consistent_move_to_buffer.
  - intros element_id validation_result d budget Hc.
    destruct (update_buffer_final d element_id validation_result budget) as [->| ->];
      [by exists d|].
    eexists. split; [reflexivity|]. apply consistent_DELETE_FROM_BUFFER.
    destruct validation_result; [|done].
    by apply consistent_INSERT_INTO_PROCESSING_QUEUE_SELECT_FROM_BUFFER.
  - intros d budget Hc. exists d. split; [|done].
    run_polling. destruct budget as [k|]; simpl; auto; kill_points k.
  - intros d budget Hc. exists d. split; [|done].
    run_polling. destruct budget as [k|]; simpl; auto; kill_points k.
Qed.

(** X1: [enqueue_to_validation_queue] with a processing model type (and a
    mask flag when it is SEGMENTATION) appends exactly one row to the
    validation queue, carrying the validation model id, the processing
    model id, the report id in the column of its type, the image and the
    flag; the other tables are untouched and a kill leaves the state
    before or after. *)
Theorem enqueue_to_validation_queue_appends_one_row
    (d : MySQLQueue.tables) (image_id validation_model_id model_id : Z)
    (t : ProcessingModelType) (report_id : Z) (image : bytes) (generate_mask : option bool) :
  (t = SEGMENTATION -> generate_mask <> None) ->
  let d' :=
    MySQLQueue.Tables
      (Table (rows (MySQLQueue.VALIDATION_QUEUE d)
                ++ [(auto_increment (MySQLQueue.VALIDATION_QUEUE d),
                     MySQLQueue.ValidationJob (Some validation_model_id)
                       (queued_job image_id model_id t report_id image generate_mask))])
             (auto_increment (MySQLQueue.VALIDATION_QUEUE d) + 1))
      (MySQLQueue.PROCESSING_QUEUE d) (MySQLQueue.BUFFER d) in
  MySQLQueue.enqueue_to_validation_queue
    image_id validation_model_id model_id (Processing t) report_id image generate_mask
    None (idle d)
  = Returned tt (idle d') None /\
  forall k,
    final (MySQLQueue.enqueue_to_validation_queue
             image_id validation_model_id model_id (Processing t) report_id image
             generate_mask (Some k) (idle d)) = idle d \/
    final (MySQLQueue.enqueue_to_validation_queue
             image_id validation_model_id model_id (Processing t) report_id image
             generate_mask (Some k) (idle d)) = idle d'.
Proof.
  intros Hmask d'. unfold d'.
  destruct t, generate_mask as [mask|]; try (by destruct Hmask);
    (split; [reflexivity|]); intros k; run; kill_points k.
Qed.

(** X2: a model type that is not a processing model type makes both enqueue
    methods raise the [ValueError] of the [case _] arm, whose message is
    "Invalid model type: " followed by the member as the f-string writes
    it, before any statement is executed: the connection is left as it
    was. *)
Theorem enqueue_rejects_other_model_types
    (vt : ValidationModelType) (image_id validation_model_id model_id report_id : Z)
    (image : bytes) (generate_mask : option bool) (budget : option nat)
    (c : MySQLQueue.state) :
  MySQLQueue.enqueue_to_processing_queue
    image_id model_id (Validation vt) report_id image generate_mask budget c
  = Raised (ValueError "Invalid model type: ValidationModelType.COFFEE_LEAF_OCC") c /\
  MySQLQueue.enqueue_to_validation_queue
    image_id validation_model_id model_id (Validation vt) report_id image generate_mask
    budget c
  = Raised (ValueError "Invalid model type: ValidationModelType.COFFEE_LEAF_OCC") c.
Proof. destruct vt. split; reflexivity. Qed.


Section Steps.
Import MySQLQueue.

Lemma buffer_ids_below_counter d :
  consistent d -> auto_increment (VALIDATION_QUEUE d) ∉ ids (BUFFER d).
Proof.
  intros (_ & _ & _ & Hb & _) Hin. rewrite Forall_forall in Hb.
  destruct (Hb _ Hin) as [Hlt _]. lia.
Qed.

Lemma enqueue_to_validation_queue_run d image_id validation_model_id model_id t report_id
    image generate_mask :
  (t = SEGMENTATION -> generate_mask <> None) ->
  enqueue_to_validation_queue image_id validation_model_id model_id (Processing t)
                              report_id image generate_mask None (idle d)
  = Returned tt
      (idle (INSERT_INTO_VALIDATION_QUEUE
               (ValidationJob (Some validation_model_id)
                  (queued_job image_id model_id t report_id image generate_mask)) d))
      None.
Proof.
  intros Hmask. destruct t, generate_mask as [mask|]; try (by destruct Hmask); reflexivity.
Qed.

Lemma queued_job_report image_id model_id t report_id image generate_mask :
  Queue.process_report_id
    (CLASSIFICATION_REPORT_ID (queued_job image_id model_id t report_id image generate_mask))
    (SEGMENTATION_REPORT_ID (queued_job image_id model_id t report_id image generate_mask))
  = Ok (Some report_id, t).
Proof. by destruct t. Qed.

Lemma dequeue_from_validation_queue_head d row rest rid rty :
  table_wf (VALIDATION_QUEUE d) ->
  rows (VALIDATION_QUEUE d) = row :: rest ->
  Queue.process_report_id (CLASSIFICATION_REPORT_ID (JOB row.2))
                          (SEGMENTATION_REPORT_ID (JOB row.2)) = Ok (rid, rty) ->
  dequeue_from_validation_queue None (idle d)
  = Returned (Some (Queue.mkQueueElement row.1 (VALIDATION_MODEL_ID row.2) rid rty
                                         (IMAGE (JOB row.2)) (Some false)))
      (idle (Tables (Table rest (auto_increment (VALIDATION_QUEUE d)))
                    (PROCESSING_QUEUE d) (BUFFER d ++ [(row.1, JOB row.2)])))
      None.
Proof.
  intros Hwf Hrows Hok.
  assert (E : order_by_id_limit_1 (rows (VALIDATION_QUEUE d)) = Some row).
  { rewrite Hrows. apply oldest_is_first. rewrite <- Hrows. apply Hwf. }
  destruct (sorted_rows_head _ _ Hwf E) as (rest' & Hrows' & Hw & Hd).
  assert (rest' = rest) as -> by congruence.
  run. unfold SELECT_FROM_VALIDATION_QUEUE_ORDER_BY_ID_LIMIT_1.
  rewrite E. simpl. rewrite Hok. simpl.
  unfold DELETE_FROM_VALIDATION_QUEUE, INSERT_INTO_BUFFER_SELECT_FROM_VALIDATION_QUEUE,
    delete_from. simpl. rewrite Hw, Hd. reflexivity.
Qed.

Lemma dequeue_from_processing_queue_head d row rest rid rty :
  table_wf (PROCESSING_QUEUE d) ->
  rows (PROCESSING_QUEUE d) = row :: rest ->
  Queue.process_report_id (CLASSIFICATION_REPORT_ID row.2)
                          (SEGMENTATION_REPORT_ID row.2) = Ok (rid, rty) ->
  dequeue_from_processing_queue None (idle d)
  = Returned (Some (Queue.mkQueueElement row.1 (Some (MODEL_ID row.2)) rid rty
                                         (IMAGE row.2) (GENERATE_MASK row.2)))
      (idle (Tables (VALIDATION_QUEUE d)
                    (Table rest (auto_increment (PROCESSING_QUEUE d))) (BUFFER d)))
      None.
Proof.
  intros Hwf Hrows Hok.
  assert (E : order_by_id_limit_1 (rows (PROCESSING_QUEUE d)) = Some row).
  { rewrite Hrows. apply oldest_is_first. rewrite <- Hrows. apply Hwf. }
  destruct (sorted_rows_head _ _ Hwf E) as (rest' & Hrows' & Hw & Hd).
  assert (rest' = rest) as -> by congruence.
  run. unfold SELECT_FROM_PROCESSING_QUEUE_ORDER_BY_ID_LIMIT_1.
  rewrite E. simpl. rewrite Hok. simpl.
  unfold DELETE_FROM_PROCESSING_QUEUE, delete_from. simpl. rewrite Hd. reflexivity.
Qed.

Lemma dequeue_from_processing_queue_empty d :
  rows (PROCESSING_QUEUE d) = [] ->
  dequeue_from_processing_queue None (idle d) = Returned None (idle d) None.
Proof.
  intros Hrows. run. unfold SELECT_FROM_PROCESSING_QUEUE_ORDER_BY_ID_LIMIT_1.
  by rewrite Hrows.
Qed.

Lemma update_buffer_run d element_id validation_result :
  update_buffer element_id validation_result None (idle d)
  = Returned tt
      (idle (DELETE_FROM_BUFFER element_id
               (if validation_result
                then INSERT_INTO_PROCESSING_QUEUE_SELECT_FROM_BUFFER element_id d
                else d)))
      None.
Proof. by destruct validation_result. Qed.
End Steps.

(** X5: a job enqueued for validation into empty queues is dequeued by the
    validation stage with the validation model id and mask flag [False];
    when the verdict is [True] the processing stage then dequeues it with
    the processing model id, the same report id and type, the image and
    the mask flag it was enqueued with, and all tables are as before but
    for the counters; when the verdict is [False] the processing queue
    stays empty and the job is gone. *)
Theorem validated_job_round_trip
    (d : MySQLQueue.tables) (image_id validation_model_id model_id : Z)
    (t : ProcessingModelType) (report_id : Z) (image : bytes) (mask : bool) :
  consistent d ->
  rows (MySQLQueue.VALIDATION_QUEUE d) = [] ->
  rows (MySQLQueue.PROCESSING_QUEUE d) = [] ->
  let n := auto_increment (MySQLQueue.VALIDATION_QUEUE d) in
  let m := auto_increment (MySQLQueue.PROCESSING_QUEUE d) in
  let judged :=
    Queue.mkQueueElement n (Some validation_model_id) (Some report_id) t image (Some false) in
  let processed :=
    Queue.mkQueueElement m (Some model_id) (Some report_id) t image (Some mask) in
  (MySQLQueue.enqueue_to_validation_queue
     image_id validation_model_id model_id (Processing t) report_id image (Some mask);;
   through_validation true) None (idle d)
  = Returned (Some judged, Some processed)
      (idle (MySQLQueue.Tables (Table [] (n + 1)) (Table [] (m + 1)) (MySQLQueue.BUFFER d)))
      None /\
  (MySQLQueue.enqueue_to_validation_queue
     image_id validation_model_id model_id (Processing t) report_id image (Some mask);;
   through_validation false) None (idle d)
  = Returned (Some judged, None)
      (idle (MySQLQueue.Tables (Table [] (n + 1)) (Table [] m) (MySQLQueue.BUFFER d)))
      None.
Proof.
  intros Hc Hv Hp n m judged processed.
  pose proof (buffer_ids_below_counter d Hc) as Hfresh. fold n in Hfresh.
  set (j := queued_job image_id model_id t report_id image (Some mask)).
  set (vj := MySQLQueue.ValidationJob (Some validation_model_id) j).
  assert (Hc1 : consistent (MySQLQueue.INSERT_INTO_VALIDATION_QUEUE vj d)).
  { apply consistent_enqueue_validation; [done|]. destruct t; [right|left]; reflexivity. }
  destruct d as [[vrows vn] [prows pn] buf]. simpl in *. subst vrows prows n m.
  assert (Hw : where_id vn (buf ++ [(vn, j)]) = [(vn, j)]).
  { apply (where_id_unique vn j buf []); [done|apply not_elem_of_nil]. }
  assert (Hd : delete_where_id vn (buf ++ [(vn, j)]) = buf).
  { rewrite (delete_where_id_unique vn j buf []); [apply app_nil_r|done|].
    apply not_elem_of_nil. }
  assert (Hstep1 : forall verdict,
    (MySQLQueue.enqueue_to_validation_queue
       image_id validation_model_id model_id (Processing t) report_id image (Some mask);;
     through_validation verdict) None
      (idle (MySQLQueue.Tables (Table [] vn) (Table [] pn) buf))
    = (MySQLQueue.dequeue_from_processing_queue ≫= fun p => mret (Some judged, p)) None
        (idle (MySQLQueue.DELETE_FROM_BUFFER vn
                 (if verdict
                  then MySQLQueue.INSERT_INTO_PROCESSING_QUEUE_SELECT_FROM_BUFFER vn
                         (MySQLQueue.Tables (Table [] (vn + 1)) (Table [] pn)
                                            (buf ++ [(vn, j)]))
                  else MySQLQueue.Tables (Table [] (vn + 1)) (Table [] pn)
                                         (buf ++ [(vn, j)]))))).
  { intros verdict. unfold mbind at 1, M_bind at 1.
    rewrite enqueue_to_validation_queue_run by done. fold j vj.
    unfold through_validation, mbind at 1, M_bind at 1.
    rewrite (dequeue_from_validation_queue_head _ (vn, vj) [] (Some report_id) t);
      [|apply Hc1|reflexivity|apply queued_job_report].
    simpl. unfold mbind at 1, M_bind at 1. rewrite update_buffer_run. reflexivity. }
  split; rewrite Hstep1; unfold MySQLQueue.DELETE_FROM_BUFFER,
    MySQLQueue.INSERT_INTO_PROCESSING_QUEUE_SELECT_FROM_BUFFER; simpl;
    rewrite ?Hw, Hd; simpl; unfold mbind, M_bind.
  - rewrite (dequeue_from_processing_queue_head _ (pn, j) [] (Some report_id) t);
      [reflexivity| |reflexivity|apply queued_job_report].
    split; simpl; repeat constructor. lia.
  - rewrite dequeue_from_processing_queue_empty by done. reflexivity.
Qed.

(** ** Killed between commit and return; rows with two report ids *)

(** X6: a worker killed during a dequeue before the commit leaves the queue
    as it was; killed between the commit and the return it has removed the
    oldest row without returning it: the processing job is in no table any
    more, the validation job is in the buffer. *)
Theorem dequeue_killed_after_commit (d : MySQLQueue.tables) :
  consistent d ->
  (forall row rest,
     rows (MySQLQueue.PROCESSING_QUEUE d) = row :: rest ->
     (forall k, (k <= 3)%nat ->
        MySQLQueue.dequeue_from_processing_queue (Some k) (idle d) = Killed (idle d)) /\
     MySQLQueue.dequeue_from_processing_queue (Some 4%nat) (idle d)
     = Killed (idle (MySQLQueue.Tables
                       (MySQLQueue.VALIDATION_QUEUE d)
                       (Table rest (auto_increment (MySQLQueue.PROCESSING_QUEUE d)))
                       (MySQLQueue.BUFFER d)))) /\
  (forall row rest,
     rows (MySQLQueue.VALIDATION_QUEUE d) = row :: rest ->
     (forall k, (k <= 4)%nat ->
        MySQLQueue.dequeue_from_validation_queue (Some k) (idle d) = Killed (idle d)) /\
     MySQLQueue.dequeue_from_validation_queue (Some 5%nat) (idle d)
     = Killed (idle (MySQLQueue.Tables
                       (Table rest (auto_increment (MySQLQueue.VALIDATION_QUEUE d)))
                       (MySQLQueue.PROCESSING_QUEUE d)
                       (MySQLQueue.BUFFER d ++ [(row.1, MySQLQueue.JOB row.2)])))).
Proof.
  intros (Hv & Hp & _). split.
  - intros row rest Hrows.
    assert (E : order_by_id_limit_1 (rows (MySQLQueue.PROCESSING_QUEUE d)) = Some row).
    { rewrite Hrows. apply oldest_is_first. rewrite <- Hrows. apply Hp. }
    destruct (sorted_rows_head _ _ Hp E) as (rest' & Hrows' & Hw & Hd).
    assert (rest' = rest) as -> by congruence.
    split.
    + intros k Hk. run. unfold MySQLQueue.SELECT_FROM_PROCESSING_QUEUE_ORDER_BY_ID_LIMIT_1.
      destruct k as [|[|[|[|k]]]]; try lia; simpl; rewrite ?E; reflexivity.
    + run. unfold MySQLQueue.SELECT_FROM_PROCESSING_QUEUE_ORDER_BY_ID_LIMIT_1,
        MySQLQueue.DELETE_FROM_PROCESSING_QUEUE, delete_from.
      rewrite E. simpl. rewrite Hd. reflexivity.
  - intros row rest Hrows.
    assert (E : order_by_id_limit_1 (rows (MySQLQueue.VALIDATION_QUEUE d)) = Some row).
    { rewrite Hrows. apply oldest_is_first. rewrite <- Hrows. apply Hv. }
    destruct (sorted_rows_head _ _ Hv E) as (rest' & Hrows' & Hw & Hd).
    assert (rest' = rest) as -> by congruence.
    split.
    + intros k Hk. run. unfold MySQLQueue.SELECT_FROM_VALIDATION_QUEUE_ORDER_BY_ID_LIMIT_1.
      destruct k as [|[|[|[|[|k]]]]]; try lia; simpl; rewrite ?E; reflexivity.
    + run. unfold MySQLQueue.SELECT_FROM_VALIDATION_QUEUE_ORDER_BY_ID_LIMIT_1,
        MySQLQueue.DELETE_FROM_VALIDATION_QUEUE,
        MySQLQueue.INSERT_INTO_BUFFER_SELECT_FROM_VALIDATION_QUEUE, delete_from.
      rewrite E. simpl. rewrite Hw, Hd. reflexivity.
Qed.

(** X7: when the oldest processing row names both a classification and a
    segmentation report, [dequeue_from_processing_queue] raises "Multiple
    report IDs found" after it has deleted the row and committed. *)
Theorem dequeue_consumes_row_with_two_report_ids
    (d : MySQLQueue.tables) (row : Z * MySQLQueue.job) (rest : list (Z * MySQLQueue.job))
    (c s : Z) :
  table_wf (MySQLQueue.PROCESSING_QUEUE d) ->
  rows (MySQLQueue.PROCESSING_QUEUE d) = row :: rest ->
  MySQLQueue.CLASSIFICATION_REPORT_ID row.2 = Some c ->
  MySQLQueue.SEGMENTATION_REPORT_ID row.2 = Some s ->
  MySQLQueue.dequeue_from_processing_queue None (idle d)
  = Raised (ValueError "Multiple report IDs found")
      (idle (MySQLQueue.Tables
               (MySQLQueue.VALIDATION_QUEUE d)
               (Table rest (auto_increment (MySQLQueue.PROCESSING_QUEUE d)))
               (MySQLQueue.BUFFER d))).
Proof.
  intros Hp Hrows Hcls Hseg.
  assert (E : order_by_id_limit_1 (rows (MySQLQueue.PROCESSING_QUEUE d)) = Some row).
  { rewrite Hrows. apply oldest_is_first. rewrite <- Hrows. apply Hp. }
  destruct (sorted_rows_head _ _ Hp E) as (rest' & Hrows' & Hw & Hd).
  assert (rest' = rest) as -> by congruence.
  run. unfold MySQLQueue.SELECT_FROM_PROCESSING_QUEUE_ORDER_BY_ID_LIMIT_1,
    MySQLQueue.DELETE_FROM_PROCESSING_QUEUE, delete_from.
  rewrite E. simpl. rewrite Hcls, Hseg, Hd. reflexivity.
Qed.


(** ** Further properties of ingestion *)

Section Ingestion.

Variables (db : MySQLDatabase.tables) (models : gmap Z Model)
          (q : MySQLQueue.tables) (st : MySQLStorage.tables).
Variables (user_id : Z) (filename : string) (image : bytes) (processing_model_id : Z)
          (t : ProcessingModelType) (generate_mask : bool) (validation_model_id : option Z).

Let image_id := auto_increment (MySQLDatabase.IMAGE db).
Let report_id := next_report_id t db.
Let db1 := with_image user_id filename db.
Let db2 := with_report t user_id image_id processing_model_id generate_mask db1.
Let st1 := with_stored_image image_id image st.
Let q1 :=
  MySQLQueue.INSERT_INTO_VALIDATION_QUEUE
    (MySQLQueue.ValidationJob validation_model_id
       (queued_job image_id processing_model_id t report_id image (Some generate_mask))) q.

(** X8: for an enabled model of the declared type (and no mask for a
    classifier) [enqueue_report] returns the generated id of the new
    report; it has written one IMAGE row, the image bytes under that image
    id, one report row in the table of the model type, and one row in the
    validation queue whose validation model id is the one given or NULL
    when none was given; the processing queue and the buffer are as they
    were. *)
Theorem enqueue_report_writes_image_report_and_job (m : Model) :
  models !! processing_model_id = Some m ->
  type m = Processing t ->
  (t = CLASSIFICATION -> generate_mask = false) ->
  enqueue_report user_id filename image processing_model_id (Processing t) generate_mask
                 validation_model_id None (world db models q st)
  = Returned report_id (world db2 models q1 st1) None /\
  MySQLQueue.PROCESSING_QUEUE q1 = MySQLQueue.PROCESSING_QUEUE q /\
  MySQLQueue.BUFFER q1 = MySQLQueue.BUFFER q.
Proof.
  intros Hm Hty Hmask. split; [|done].
  unfold world. run_ingestion. rewrite Hm. simpl. rewrite Hty. simpl.
  destruct t, generate_mask; try (specialize (Hmask eq_refl); discriminate);
    destruct validation_model_id; reflexivity.
Qed.

(** X9: wherever [enqueue_report] is killed, what is committed is a prefix
    of its writes in the order image row, image bytes, report row, queue
    row: a queued job always has its report, its stored image and its
    image row. *)
Theorem enqueue_report_kill_leaves_a_prefix (m : Model) (k : nat) :
  models !! processing_model_id = Some m ->
  type m = Processing t ->
  (t = CLASSIFICATION -> generate_mask = false) ->
  final (enqueue_report user_id filename image processing_model_id (Processing t)
                        generate_mask validation_model_id (Some k) (world db models q st))
  ∈ [ world db models q st;
      world db1 models q st;
      world db1 models q st1;
      world db2 models q st1;
      world db2 models q1 st1 ].
Proof.
  intros Hm Hty Hmask.
  unfold world. run_ingestion. rewrite Hm. simpl. rewrite Hty. simpl.
  destruct t, generate_mask; try (specialize (Hmask eq_refl); discriminate);
    destruct validation_model_id; simpl;
    kill_points_deep k;
    cbv [rollback interfaces_rollback MySQLDatabase.state_rollback conn_rollback]; simpl;
    repeat (first [ by left | right ]).
Qed.

(** X10: [enqueue_report] raises [KeyError] for a model id that is not
    enabled and, for a declared type other than the registered one, the
    [ValueError] whose message is "Model type mismatch: ", the declared
    type, " expected, ", the registered type and " found", the types
    written as the f-string writes them; in both cases every table is as
    it was. *)
Theorem enqueue_report_rejections_write_nothing
    (processing_model_type : ModelType) (budget : option nat) (w : interfaces) :
  (MySQLDatabase.enabled_models (database w) !! processing_model_id = None ->
   enqueue_report user_id filename image processing_model_id processing_model_type
                  generate_mask validation_model_id budget w
   = Raised (KeyError processing_model_id) w) /\
  (forall m,
     MySQLDatabase.enabled_models (database w) !! processing_model_id = Some m ->
     processing_model_type <> type m ->
     enqueue_report user_id filename image processing_model_id processing_model_type
                    generate_mask validation_model_id budget w
     = Raised (ValueError ("Model type mismatch: "
                           +:+ str_ModelType processing_model_type
                           +:+ " expected, " +:+ str_ModelType (type m)
                           +:+ " found")) w).
Proof.
  split.
  - intros Hm. unfold enqueue_report, enabled_model, mbind, M_bind. by rewrite Hm.
  - intros m Hm Hne. by apply (enqueue_report_type_mismatch_writes_nothing w m).
Qed.
End Ingestion.

(** X11: started from the command line, where the mask flag is forced to
    [False] unless the subcommand is [segmentation], ingestion never raises
    "Classification models do not generate masks". *)
Theorem command_line_never_asks_a_classifier_for_a_mask
    (basename : string -> string) (a : EnqueueReportMain.args)
    (budget : option nat) (w w' : interfaces) :
  EnqueueReportMain.main basename a budget w
  <> Raised (ValueError "Classification models do not generate masks") w'.
Proof.
  unfold EnqueueReportMain.main.
  destruct a as [uid name img pid vmid pty gm]; simpl.
  unfold enqueue_report, enabled_model. unfold mbind at 1, M_bind at 1.
  destruct (MySQLDatabase.enabled_models (database w) !! pid) as [m|]; [|discriminate].
  destruct (bool_decide (Processing pty <> type m)); [discriminate|].
  destruct pty; simpl; run_ingestion;
    destruct gm, vmid, budget as [k|]; simpl; try discriminate;
    kill_points_deep k; discriminate.
Qed.

(** ** Further properties of the severity bucketing *)
Section SeverityOrder.
#[local] Set Warnings "-inexact-float".
Import Segmentation.

Lemma SFcompare_le_trans x y z c1 c2 :
  SFcompare x y = Some c1 -> SFcompare y z = Some c2 -> c1 <> Gt -> c2 <> Gt ->
  exists c, SFcompare x z = Some c /\ c <> Gt.
Proof.
  intros H1 H2 Hc1 Hc2.
  destruct c1; [|eexists; split; [eapply SFcompare_trans; eauto|done]|done].
  destruct c2; [| |done].
  - (* both equal *)
    exists Eq. split; [|done]. revert H1 H2.
    destruct x as [sx|sx| |sx mx ex], y as [sy|sy| |sy my ey], z as [sz|sz| |sz mz ez];
      simpl; try discriminate;
      try (destruct sx; try discriminate); try (destruct sy; try discriminate);
      try (destruct sz; try discriminate); simpl; try congruence;
      intros H1 H2; injection H1 as H1; injection H2 as H2; f_equal;
      change (Pos.compare_cont Eq) with Pos.compare in *;
      destruct (Z.compare_spec ex ey), (Z.compare_spec ey ez), (Z.compare_spec ex ez);
      try lia; try congruence; subst;
      destruct (Pos.compare_spec mx my), (Pos.compare_spec my mz), (Pos.compare_spec mx mz);
      simpl in *; try lia; try congruence.
  - (* equal, then below *)
    exists Lt. split; [|done].
    pose proof (SFcompare_swap x y) as Hyx. rewrite H1 in Hyx. simpl in Hyx.
    pose proof (SFcompare_swap y z) as Hzy. rewrite H2 in Hzy. simpl in Hzy.
    destruct (SFcompare x z) as [[]|] eqn:Hxz; [|done| |].
    + pose proof (SFcompare_swap x z) as Hzx. rewrite Hxz in Hzx. simpl in Hzx.
      pose proof (SFcompare_trans y z x Eq H2 Hzx ltac:(discriminate)). congruence.
    + pose proof (SFcompare_swap x z) as Hzx. rewrite Hxz in Hzx. simpl in Hzx.
      pose proof (SFcompare_trans y z x Lt H2 Hzx ltac:(discriminate)). congruence.
    + apply SFcompare_None in Hxz as [-> | ->]; simpl in *; try discriminate;
        destruct y as [sy|sy| |sy my ey]; simpl in H2; discriminate.
Qed.

Lemma SFcompare_le_threshold x1 x2 a c :
  SFcompare x1 x2 = Some c -> c <> Gt ->
  match SFcompare x1 a, SFcompare x2 a with
  | Some Gt, Some Gt | Some Eq, Some Gt | Some Eq, Some Eq
  | Some Lt, Some _ | None, None => True
  | _, _ => False
  end.
Proof.
  intros H Hc.
  destruct (SFcompare x1 a) as [c1|] eqn:H1; destruct (SFcompare x2 a) as [c2|] eqn:H2.
  - destruct c1; [| done |].
    + (* x1 = a *)
      destruct c2; [done| |done].
      pose proof (SFcompare_swap x1 a) as Ha1. rewrite H1 in Ha1. simpl in Ha1.
      destruct (SFcompare_le_trans a x1 x2 Eq c Ha1 H ltac:(discriminate) Hc) as (c' & Hc' & Hne).
      rewrite SFcompare_swap, H2 in Hc'. simpl in Hc'. congruence.
    + (* a < x1 *)
      pose proof (SFcompare_swap x1 a) as Ha1. rewrite H1 in Ha1. simpl in Ha1.
      pose proof (SFcompare_trans a x1 x2 c Ha1 H Hc) as Ha2.
      rewrite SFcompare_swap, H2 in Ha2. simpl in Ha2.
      destruct c2; simpl in Ha2; try done; discriminate.
  - apply SFcompare_None in H2 as [-> | ->].
    + destruct x1 as [s|s| |s m e]; simpl in H; destruct c; discriminate.
    + destruct x1 as [s|s| |s m e]; simpl in H1; discriminate.
  - apply SFcompare_None in H1 as [-> | ->].
    + simpl in H. discriminate.
    + destruct x2 as [s|s| |s m e]; simpl in H2; discriminate.
  - done.
Qed.

(** X12: [_ratio_to_severity] is monotone: a larger stress ratio never
    gets a smaller severity. *)
Theorem ratio_to_severity_is_monotone (r1 r2 : float) :
  (r1 <=? r2)%float = true ->
  _ratio_to_severity r1 <= _ratio_to_severity r2.
Proof.
  rewrite leb_spec. unfold SFleb.
  destruct (SFcompare (Prim2SF r1) (Prim2SF r2)) as [c|] eqn:H; [|discriminate].
  intros Hle. assert (Hc : c <> Gt) by (destruct c; congruence). clear Hle.
  destruct thresholds_increasing as (Hab & Hbc & Hcd).
  pose proof (SFcompare_mono (Prim2SF r1) _ _ Hab) as M1.
  pose proof (SFcompare_mono (Prim2SF r1) _ _ Hbc) as M2.
  pose proof (SFcompare_mono (Prim2SF r1) _ _ Hcd) as M3.
  pose proof (SFcompare_mono (Prim2SF r2) _ _ Hab) as N1.
  pose proof (SFcompare_mono (Prim2SF r2) _ _ Hbc) as N2.
  pose proof (SFcompare_mono (Prim2SF r2) _ _ Hcd) as N3.
  pose proof (SFcompare_le_threshold _ _ (Prim2SF 0.001) _ H Hc) as T1.
  pose proof (SFcompare_le_threshold _ _ (Prim2SF 0.05) _ H Hc) as T2.
  pose proof (SFcompare_le_threshold _ _ (Prim2SF 0.1) _ H Hc) as T3.
  pose proof (SFcompare_le_threshold _ _ (Prim2SF 0.15) _ H Hc) as T4.
  clear H Hab Hbc Hcd.
  unfold _ratio_to_severity.
  rewrite !ltb_spec, !leb_spec. unfold SFltb, SFleb.
  rewrite (SFcompare_swap (Prim2SF r1) (Prim2SF 0.001)),
          (SFcompare_swap (Prim2SF r1) (Prim2SF 0.05)),
          (SFcompare_swap (Prim2SF r1) (Prim2SF 0.1)),
          (SFcompare_swap (Prim2SF r1) (Prim2SF 0.15)),
          (SFcompare_swap (Prim2SF r2) (Prim2SF 0.001)),
          (SFcompare_swap (Prim2SF r2) (Prim2SF 0.05)),
          (SFcompare_swap (Prim2SF r2) (Prim2SF 0.1)),
          (SFcompare_swap (Prim2SF r2) (Prim2SF 0.15)).
  destruct (SFcompare (Prim2SF r1) (Prim2SF 0.001)) as [[]|];
  destruct (SFcompare (Prim2SF r2) (Prim2SF 0.001)) as [[]|];
  simpl in T1; try contradiction;
  destruct (SFcompare (Prim2SF r1) (Prim2SF 0.05)) as [[]|];
  simpl in M1; try contradiction;
  destruct (SFcompare (Prim2SF r2) (Prim2SF 0.05)) as [[]|];
  simpl in N1, T2; try contradiction;
  destruct (SFcompare (Prim2SF r1) (Prim2SF 0.1)) as [[]|];
  simpl in M2; try contradiction;
  destruct (SFcompare (Prim2SF r2) (Prim2SF 0.1)) as [[]|];
  simpl in N2, T3; try contradiction;
  destruct (SFcompare (Prim2SF r1) (Prim2SF 0.15)) as [[]|];
  simpl in M3; try contradiction;
  destruct (SFcompare (Prim2SF r2) (Prim2SF 0.15)) as [[]|];
  simpl in N3, T4; try contradiction;
  simpl; lia.
Qed.

(** X17: on the [float32] ratio that the wrapper passes,
    [_ratio_to_severity] is monotone as well: a larger stress ratio never
    gets a smaller severity. *)
Theorem ratio_to_severity_on_tensor_is_monotone (r1 r2 : spec_float) :
  SFleb r1 r2 = true ->
  Tensor._ratio_to_severity r1 <= Tensor._ratio_to_severity r2.
Proof.
  unfold SFleb at 1.
  destruct (SFcompare r1 r2) as [c|] eqn:H; [|discriminate].
  intros Hle. assert (Hc : c <> Gt) by (destruct c; congruence). clear Hle.
  destruct float32_thresholds_increasing as (Hab & Hbc & Hcd).
  pose proof (SFcompare_mono r1 _ _ Hab) as M1.
  pose proof (SFcompare_mono r1 _ _ Hbc) as M2.
  pose proof (SFcompare_mono r1 _ _ Hcd) as M3.
  pose proof (SFcompare_mono r2 _ _ Hab) as N1.
  pose proof (SFcompare_mono r2 _ _ Hbc) as N2.
  pose proof (SFcompare_mono r2 _ _ Hcd) as N3.
  pose proof (SFcompare_le_threshold _ _ (Float32.of_float 0.001) _ H Hc) as T1.
  pose proof (SFcompare_le_threshold _ _ (Float32.of_float 0.05) _ H Hc) as T2.
  pose proof (SFcompare_le_threshold _ _ (Float32.of_float 0.1) _ H Hc) as T3.
  pose proof (SFcompare_le_threshold _ _ (Float32.of_float 0.15) _ H Hc) as T4.
  clear H Hab Hbc Hcd.
  unfold Tensor._ratio_to_severity, SFltb, SFleb.
  rewrite (SFcompare_swap r1 (Float32.of_float 0.001)),
          (SFcompare_swap r1 (Float32.of_float 0.05)),
          (SFcompare_swap r1 (Float32.of_float 0.1)),
          (SFcompare_swap r1 (Float32.of_float 0.15)),
          (SFcompare_swap r2 (Float32.of_float 0.001)),
          (SFcompare_swap r2 (Float32.of_float 0.05)),
          (SFcompare_swap r2 (Float32.of_float 0.1)),
          (SFcompare_swap r2 (Float32.of_float 0.15)).
  destruct (SFcompare r1 (Float32.of_float 0.001)) as [[]|];
  destruct (SFcompare r2 (Float32.of_float 0.001)) as [[]|];
  simpl in T1; try contradiction;
  destruct (SFcompare r1 (Float32.of_float 0.05)) as [[]|];
  simpl in M1; try contradiction;
  destruct (SFcompare r2 (Float32.of_float 0.05)) as [[]|];
  simpl in N1, T2; try contradiction;
  destruct (SFcompare r1 (Float32.of_float 0.1)) as [[]|];
  simpl in M2; try contradiction;
  destruct (SFcompare r2 (Float32.of_float 0.1)) as [[]|];
  simpl in N2, T3; try contradiction;
  destruct (SFcompare r1 (Float32.of_float 0.15)) as [[]|];
  simpl in M3; try contradiction;
  destruct (SFcompare r2 (Float32.of_float 0.15)) as [[]|];
  simpl in N3, T4; try contradiction;
  simpl; lia.
Qed.
End SeverityOrder.
(** ** Model descriptors and loading *)

(** X13: [Database.insert_model] and the script's [insert_model] raise
    the [ValueError] with the message "Invalid model type: " followed by
    the type as the f-string writes it when the type is not a member of
    the category's enumeration, before the implementation inserts the model or the weights
    are stored; otherwise they are the implementation's insert, followed in
    the script by storing the weights under the new model id. *)
Theorem insert_model_validates_before_it_writes
    {S : Type}
    (_insert_model :
       ModelCategory -> ModelType -> string -> string -> string -> string -> bool -> M S Z)
    (store_weights : bytes -> Z -> M S unit)
    (model_category : ModelCategory) (model_type : ModelType)
    (subtype module class_name version : string) (enabled : bool) (weights : bytes)
    (budget : option nat) (s : S) :
  (belongs_to model_category model_type = false ->
   Database.insert_model _insert_model model_category model_type
                         subtype module class_name version enabled budget s
   = Raised (ValueError ("Invalid model type: " +:+ str_ModelType model_type)) s /\
   InsertModel.insert_model _insert_model store_weights model_category model_type
                            subtype module class_name version enabled weights budget s
   = Raised (ValueError ("Invalid model type: " +:+ str_ModelType model_type)) s) /\
  (belongs_to model_category model_type = true ->
   Database.insert_model _insert_model model_category model_type
                         subtype module class_name version enabled budget s
   = _insert_model model_category model_type subtype module class_name version enabled
                   budget s /\
   InsertModel.insert_model _insert_model store_weights model_category model_type
                            subtype module class_name version enabled weights budget s
   = (_insert_model model_category model_type subtype module class_name version enabled
        ≫= store_weights weights) budget s).
Proof.
  destruct model_category, model_type as [t|t]; simpl; split; intros H; try discriminate;
    split; reflexivity.
Qed.

(** X14: [load_model] fails with a [ValueError] and imports nothing when
    the model's type is not of its category; otherwise it imports the
    model and wraps it in the class of its type, and the check of
    category against type in the wrapper's constructor cannot fail. *)
Theorem load_model_picks_class_by_type
    {ModelBase : Type} (import_model : Model -> bytes -> result ModelBase)
    (model : Model) (weights : bytes) :
  (belongs_to (category model) (type model) = false ->
   exists msg, Main.load_model import_model model weights = Err (ValueError msg)) /\
  (belongs_to (category model) (type model) = true ->
   Main.load_model import_model model weights
   = (m ← import_model model weights;
      Ok (Core.mkModelWrapper (class_of (type model)) m))).
Proof.
  destruct model as [cat ty sub mdl cls]. simpl.
  unfold Main.load_model, Main.load_validation_model, Main.load_processing_model,
    Core.__init__, Core._get_model; simpl.
  destruct cat, ty as [[]|[]]; simpl; split; intros H; try discriminate;
    eauto; reflexivity.
Qed.

Section LoadProperModels.
Context {ModelBase S : Type}.
Variable import_model : Model -> bytes -> result ModelBase.
Variable retrieve_weights : Z -> M S bytes.

#[local] Abbreviation wrapper := (@Core.ModelWrapper ModelBase).

Lemma dict_comprehension_returned
    (load : Model -> bytes -> result wrapper) (cond : Model -> bool)
    (items : list (Z * Model)) :
  forall (acc : gmap Z wrapper) budget s models s' budget',
    Main.dict_comprehension retrieve_weights load cond items acc budget s
    = Returned models s' budget' ->
    (forall id, id ∈ dom models <->
                id ∈ dom acc \/ exists m, (id, m) ∈ items /\ cond m = true) /\
    (forall id w, models !! id = Some w ->
                  acc !! id = Some w \/
                  exists m weights, (id, m) ∈ items /\ cond m = true /\ load m weights = Ok w).
Proof.
  induction items as [|[id0 m0] items IH]; intros acc budget s models s' budget'; simpl.
  - intros [= <- <- <-]. split.
    + intros id. split; [by left|]. intros [H|(m & Hm & _)]; [done|]. by apply elem_of_nil in Hm.
    + intros id w H. by left.
  - destruct (cond m0) eqn:Hc.
    + unfold mbind at 1, M_bind at 1.
      destruct (retrieve_weights id0 budget s) as [weights s1 b1| |]; [|discriminate..].
      unfold mbind at 1, M_bind at 1.
      destruct (load m0 weights) as [w0|e] eqn:Hl; simpl; [|discriminate].
      intros Hrun. destruct (IH _ _ _ _ _ _ Hrun) as [Hdom Hval]. split.
      * intros id. rewrite Hdom, dom_insert, elem_of_union, elem_of_singleton.
        split.
        -- intros [[->|H]|(m & Hm & Hcm)].
           ++ right. exists m0. split; [left|done].
           ++ by left.
           ++ right. exists m. split; [by right|done].
        -- intros [H|(m & Hm & Hcm)]; [left; by right|].
           apply elem_of_cons in Hm as [[= -> ->]|Hm]; [left; by left|].
           right. by exists m.
      * intros id w Hw. destruct (Hval id w Hw) as [Hacc|(m & ws & Hm & Hcm & Hlm)].
        -- destruct (decide (id = id0)) as [->|Hne].
           ++ rewrite lookup_insert_eq in Hacc. injection Hacc as <-.
              right. exists m0, weights. split; [left|done].
           ++ rewrite lookup_insert_ne in Hacc by done. by left.
        -- right. exists m, ws. split; [by right|done].
    + intros Hrun. destruct (IH _ _ _ _ _ _ Hrun) as [Hdom Hval]. split.
      * intros id. rewrite Hdom. split.
        -- intros [H|(m & Hm & Hcm)]; [by left|]. right. exists m. split; [by right|done].
        -- intros [H|(m & Hm & Hcm)]; [by left|].
           apply elem_of_cons in Hm as [[= -> ->]|Hm]; [congruence|].
           right. by exists m.
      * intros id w Hw. destruct (Hval id w Hw) as [Hacc|(m & ws & Hm & Hcm & Hlm)];
          [by left|]. right. exists m, ws. split; [by right|done].
Qed.

Lemma dict_comprehension_returns
    (load : Model -> bytes -> result wrapper) (cond : Model -> bool)
    (weights_of : Z -> bytes) (items : list (Z * Model)) :
  (forall id s, retrieve_weights id None s = Returned (weights_of id) s None) ->
  (forall id m, (id, m) ∈ items -> cond m = true -> exists w, load m (weights_of id) = Ok w) ->
  forall (acc : gmap Z wrapper) s,
    exists models,
      Main.dict_comprehension retrieve_weights load cond items acc None s
      = Returned models s None.
Proof.
  intros Hret. induction items as [|[id0 m0] items IH]; intros Hload acc s; simpl.
  - by exists acc.
  - destruct (cond m0) eqn:Hc.
    + unfold mbind at 1, M_bind at 1. rewrite Hret.
      destruct (Hload id0 m0 ltac:(left) Hc) as [w Hw].
      unfold mbind at 1, M_bind at 1. rewrite Hw. simpl.
      apply IH. intros id m Hm. apply Hload. by right.
    + apply IH. intros id m Hm. apply Hload. by right.
Qed.

Lemma load_model_ok (model : Model) (weights : bytes) (w : wrapper) :
  Main.load_model import_model model weights = Ok w ->
  belongs_to (category model) (type model) = true /\ Core.class_ w = class_of (type model).
Proof.
  destruct model as [cat ty sub mdl cls]. simpl.
  unfold Main.load_model, Main.load_validation_model, Main.load_processing_model,
    Core.__init__, Core._get_model; simpl.
  destruct cat, ty as [[]|[]]; simpl; try discriminate;
    destruct (import_model _ _); simpl; intros [= <-]; done.
Qed.

(** X15: [load_proper_models] returns when the weights of every model of
    the running mode are retrieved and the model loads; the dict it returns
    has exactly the ids of the enabled models whose category the mode
    admits (all of them in mode BOTH), each with a wrapper of the class of
    its type. *)
Theorem load_proper_models_loads_the_models_of_the_mode
    (enabled_models : list (Z * Model)) (running_mode : Main.RunningMode.t) :
  (forall weights_of s,
     (forall id s0, retrieve_weights id None s0 = Returned (weights_of id) s0 None) ->
     (forall id m, (id, m) ∈ enabled_models ->
                   mode_admits running_mode (category m) = true ->
                   exists w, Main.load_model import_model m (weights_of id) = Ok w) ->
     exists models,
       Main.load_proper_models import_model retrieve_weights enabled_models running_mode
                               None s
       = Returned models s None) /\
  (forall budget s models s' budget',
     Main.load_proper_models import_model retrieve_weights enabled_models running_mode
                             budget s
     = Returned models s' budget' ->
     (forall id, id ∈ dom models <->
                 exists m, (id, m) ∈ enabled_models /\
                           mode_admits running_mode (category m) = true) /\
     (forall id w, models !! id = Some w ->
                   exists m, (id, m) ∈ enabled_models /\
                             mode_admits running_mode (category m) = true /\
                             belongs_to (category m) (type m) = true /\
                             Core.class_ w = class_of (type m))).
Proof.
  assert (Hsame : forall m weights,
             (category m = VALIDATION ->
              Main.load_validation_model import_model m weights
              = Main.load_model import_model m weights) /\
             (category m = PROCESSING ->
              Main.load_processing_model import_model m weights
              = Main.load_model import_model m weights)).
  { intros m weights. unfold Main.load_model. split; intros ->; reflexivity. }
  split.
  - intros weights_of s Hret Hload.
    unfold Main.load_proper_models. destruct running_mode;
      apply (dict_comprehension_returns _ _ weights_of); try done;
      intros id m Hm Hc.
    + apply bool_decide_eq_true in Hc.
      rewrite (proj1 (Hsame m _) Hc). apply (Hload id m Hm). by rewrite Hc.
    + apply bool_decide_eq_true in Hc.
      rewrite (proj2 (Hsame m _) Hc). apply (Hload id m Hm). by rewrite Hc.
    + apply (Hload id m Hm). done.
  - intros budget s models s' budget' Hrun.
    unfold Main.load_proper_models in Hrun. destruct running_mode;
      apply dict_comprehension_returned in Hrun as [Hdom Hval]; split.
    + intros id. rewrite Hdom, dom_empty, elem_of_empty. split.
      * intros [[]|(m & Hm & Hc)]. exists m. split; [done|].
        apply bool_decide_eq_true in Hc. by rewrite Hc.
      * intros (m & Hm & Hc). right. exists m. split; [done|].
        apply bool_decide_eq_true. by destruct (category m).
    + intros id w Hw. destruct (Hval id w Hw) as [Hacc|(m & ws & Hm & Hc & Hl)];
        [by rewrite lookup_empty in Hacc|].
      apply bool_decide_eq_true in Hc. rewrite (proj1 (Hsame m ws) Hc) in Hl.
      exists m. split; [done|]. split; [by rewrite Hc|]. by apply (load_model_ok m ws).
    + intros id. rewrite Hdom, dom_empty, elem_of_empty. split.
      * intros [[]|(m & Hm & Hc)]. exists m. split; [done|].
        apply bool_decide_eq_true in Hc. by rewrite Hc.
      * intros (m & Hm & Hc). right. exists m. split; [done|].
        apply bool_decide_eq_true. by destruct (category m).
    + intros id w Hw. destruct (Hval id w Hw) as [Hacc|(m & ws & Hm & Hc & Hl)];
        [by rewrite lookup_empty in Hacc|].
      apply bool_decide_eq_true in Hc. rewrite (proj2 (Hsame m ws) Hc) in Hl.
      exists m. split; [done|]. split; [by rewrite Hc|]. by apply (load_model_ok m ws).
    + intros id. rewrite Hdom, dom_empty, elem_of_empty. split.
      * intros [[]|(m & Hm & Hc)]. exists m. split; done.
      * intros (m & Hm & Hc). right. exists m. split; [done|]. by destruct (category m).
    + intros id w Hw. destruct (Hval id w Hw) as [Hacc|(m & ws & Hm & Hc & Hl)];
        [by rewrite lookup_empty in Hacc|].
      exists m. split; [done|]. split; [done|]. by apply (load_model_ok m ws).
Qed.
End LoadProperModels.

Lemma enqueue_report_returns
    (db : MySQLDatabase.tables) (models : gmap Z Model)
    (q : MySQLQueue.tables) (st : MySQLStorage.tables)
    (user_id : Z) (filename : string) (image : bytes) (processing_model_id : Z)
    (t : ProcessingModelType) (generate_mask : bool) (validation_model_id : option Z)
    (m : Model) :
  models !! processing_model_id = Some m ->
  type m = Processing t ->
  (t = CLASSIFICATION -> generate_mask = false) ->
  enqueue_report user_id filename image processing_model_id (Processing t) generate_mask
                 validation_model_id None (world db models q st)
  = Returned (next_report_id t db)
      (world (with_report t user_id (auto_increment (MySQLDatabase.IMAGE db))
                          processing_model_id generate_mask
                          (with_image user_id filename db))
             models
             (MySQLQueue.INSERT_INTO_VALIDATION_QUEUE
                (MySQLQueue.ValidationJob validation_model_id
                   (queued_job (auto_increment (MySQLDatabase.IMAGE db)) processing_model_id t
                               (next_report_id t db) image (Some generate_mask))) q)
             (with_stored_image (auto_increment (MySQLDatabase.IMAGE db)) image st))
      None.
Proof.
  intros Hm Hty Hmask.
  unfold world. run_ingestion. rewrite Hm. simpl. rewrite Hty. simpl.
  destruct t, generate_mask; try (specialize (Hmask eq_refl); discriminate);
    destruct validation_model_id; reflexivity.
Qed.

(** X16: a job ingested without a validation model into empty queues is not
    found by the processing worker; the validation worker dequeues it, with
    no model id, and it is then in the buffer. *)
Theorem unvalidated_job_goes_to_the_validation_worker
    (db : MySQLDatabase.tables) (models : gmap Z Model)
    (q : MySQLQueue.tables) (st : MySQLStorage.tables)
    (user_id : Z) (filename : string) (image : bytes) (processing_model_id : Z)
    (t : ProcessingModelType) (generate_mask : bool) (m : Model) :
  models !! processing_model_id = Some m ->
  type m = Processing t ->
  (t = CLASSIFICATION -> generate_mask = false) ->
  consistent q ->
  rows (MySQLQueue.VALIDATION_QUEUE q) = [] ->
  rows (MySQLQueue.PROCESSING_QUEUE q) = [] ->
  let ingest :=
    enqueue_report user_id filename image processing_model_id (Processing t) generate_mask
                   None in
  let image_id := auto_increment (MySQLDatabase.IMAGE db) in
  let job :=
    queued_job image_id processing_model_id t (next_report_id t db) image
               (Some generate_mask) in
  (exists w',
     (ingest;; on_queue MySQLQueue.dequeue_from_processing_queue) None
       (world db models q st)
     = Returned None w' None) /\
  (exists w',
     (ingest;; on_queue MySQLQueue.dequeue_from_validation_queue) None
       (world db models q st)
     = Returned (Some (Queue.mkQueueElement
                         (auto_increment (MySQLQueue.VALIDATION_QUEUE q)) None
                         (Some (next_report_id t db)) t image (Some false)))
         w' None /\
     working (queue w')
     = MySQLQueue.Tables
         (Table [] (auto_increment (MySQLQueue.VALIDATION_QUEUE q) + 1))
         (MySQLQueue.PROCESSING_QUEUE q)
         (MySQLQueue.BUFFER q
            ++ [(auto_increment (MySQLQueue.VALIDATION_QUEUE q), job)])).
Proof.
  intros Hm Hty Hmask Hc Hv Hp ingest image_id job.
  set (vj := MySQLQueue.ValidationJob None job).
  assert (Hc1 : consistent (MySQLQueue.INSERT_INTO_VALIDATION_QUEUE vj q)).
  { apply consistent_enqueue_validation; [done|]. destruct t; [right|left]; reflexivity. }
  split.
  - eexists. unfold ingest, mbind at 1, M_bind at 1.
    rewrite (enqueue_report_returns _ _ _ _ _ _ _ _ _ _ _ m) by done.
    unfold on_queue, on, world. simpl.
    rewrite dequeue_from_processing_queue_empty by done. reflexivity.
  - eexists. unfold ingest, mbind at 1, M_bind at 1.
    rewrite (enqueue_report_returns _ _ _ _ _ _ _ _ _ _ _ m) by done.
    unfold on_queue, on, world. simpl. fold image_id job vj.
    rewrite (dequeue_from_validation_queue_head _
               (auto_increment (MySQLQueue.VALIDATION_QUEUE q), vj) []
               (Some (next_report_id t db)) t);
      [|apply Hc1|simpl; by rewrite Hv|apply queued_job_report].
    simpl. split; reflexivity.
Qed.

(** ** Instances of the further properties on concrete states *)

Lemma enqueue_to_validation_queue_appends_one_row_witness :
  MySQLQueue.enqueue_to_validation_queue 10 7 4 (Processing SEGMENTATION) 200 [] (Some true)
    None (idle MySQLQueue.empty)
  = Returned tt
      (idle (MySQLQueue.Tables
               (Table [(1, MySQLQueue.ValidationJob (Some 7)
                             (MySQLQueue.Job 10 4 None (Some 200) [] (Some true)))] 2)
               empty_table []))
      None.
Proof.
  apply (enqueue_to_validation_queue_appends_one_row
           MySQLQueue.empty 10 7 4 SEGMENTATION 200 [] (Some true)).
  intros _. discriminate.
Defined.

Lemma validated_job_round_trip_witness :
  (MySQLQueue.enqueue_to_validation_queue 10 7 4 (Processing SEGMENTATION) 200 [] (Some true);;
   through_validation true) None (idle MySQLQueue.empty)
  = Returned
      (Some (Queue.mkQueueElement 1 (Some 7) (Some 200) SEGMENTATION [] (Some false)),
       Some (Queue.mkQueueElement 1 (Some 4) (Some 200) SEGMENTATION [] (Some true)))
      (idle (MySQLQueue.Tables (Table [] 2) (Table [] 2) []))
      None.
Proof.
  apply (validated_job_round_trip MySQLQueue.empty 10 7 4 SEGMENTATION 200 [] true);
    [compute_done | reflexivity | reflexivity].
Defined.

Lemma dequeue_killed_after_commit_witness :
  MySQLQueue.dequeue_from_processing_queue (Some 4%nat) (idle Examples.worked)
  = Killed (idle (MySQLQueue.Tables
                    (MySQLQueue.VALIDATION_QUEUE Examples.worked)
                    (Table [(2, Examples.segmentation_job)] 3)
                    (MySQLQueue.BUFFER Examples.worked))).
Proof.
  assert (H : consistent Examples.worked) by compute_done.
  apply (proj1 (dequeue_killed_after_commit Examples.worked H)
               (1, Examples.classification_job) [(2, Examples.segmentation_job)] eq_refl).
Defined.

Lemma dequeue_consumes_row_with_two_report_ids_witness :
  MySQLQueue.dequeue_from_processing_queue None (idle MoreExamples.doubly_reported)
  = Raised (ValueError "Multiple report IDs found")
      (idle (MySQLQueue.Tables empty_table (Table [] 2) [])).
Proof.
  apply (dequeue_consumes_row_with_two_report_ids
           MoreExamples.doubly_reported (1, MySQLQueue.Job 10 3 (Some 100) (Some 200) [] None)
           [] 100 200); [compute_done | reflexivity | reflexivity | reflexivity].
Defined.

Lemma enqueue_report_writes_image_report_and_job_witness :
  exists w',
    enqueue_report 7 "leaf.jpg" [] 1 (Processing CLASSIFICATION) false None None
                   Examples.fresh_install
    = Returned 1 w' None /\
    rows (MySQLQueue.VALIDATION_QUEUE (committed (queue w')))
    = [(1, MySQLQueue.ValidationJob None (MySQLQueue.Job 1 1 (Some 1) None [] (Some false)))] /\
    rows (MySQLQueue.PROCESSING_QUEUE (committed (queue w'))) = [].
Proof.
  eexists. split.
  - apply (enqueue_report_writes_image_report_and_job
             MySQLDatabase.empty {[ 1 := Examples.leaf_classifier ]} MySQLQueue.empty
             MySQLStorage.empty 7 "leaf.jpg" [] 1 CLASSIFICATION false None
             Examples.leaf_classifier); [reflexivity | reflexivity | reflexivity].
  - split; reflexivity.
Defined.

Lemma enqueue_report_kill_leaves_a_prefix_witness :
  final (enqueue_report 7 "leaf.jpg" [] 1 (Processing CLASSIFICATION) false None
                        (Some 5%nat) Examples.fresh_install)
  ∈ [ world MySQLDatabase.empty {[ 1 := Examples.leaf_classifier ]} MySQLQueue.empty
            MySQLStorage.empty;
      world (with_image 7 "leaf.jpg" MySQLDatabase.empty)
            {[ 1 := Examples.leaf_classifier ]} MySQLQueue.empty MySQLStorage.empty;
      world (with_image 7 "leaf.jpg" MySQLDatabase.empty)
            {[ 1 := Examples.leaf_classifier ]} MySQLQueue.empty
            (with_stored_image 1 [] MySQLStorage.empty);
      world (with_report CLASSIFICATION 7 1 1 false (with_image 7 "leaf.jpg" MySQLDatabase.empty))
            {[ 1 := Examples.leaf_classifier ]} MySQLQueue.empty
            (with_stored_image 1 [] MySQLStorage.empty);
      world (with_report CLASSIFICATION 7 1 1 false (with_image 7 "leaf.jpg" MySQLDatabase.empty))
            {[ 1 := Examples.leaf_classifier ]}
            (MySQLQueue.INSERT_INTO_VALIDATION_QUEUE
               (MySQLQueue.ValidationJob None
                  (queued_job 1 1 CLASSIFICATION 1 [] (Some false))) MySQLQueue.empty)
            (with_stored_image 1 [] MySQLStorage.empty) ].
Proof.
  apply (enqueue_report_kill_leaves_a_prefix
           MySQLDatabase.empty {[ 1 := Examples.leaf_classifier ]} MySQLQueue.empty
           MySQLStorage.empty 7 "leaf.jpg" [] 1 CLASSIFICATION false None
           Examples.leaf_classifier 5); [reflexivity | reflexivity | reflexivity].
Defined.

Lemma unvalidated_job_goes_to_the_validation_worker_witness :
  exists w',
    (enqueue_report 7 "leaf.jpg" [] 1 (Processing CLASSIFICATION) false None;;
     on_queue MySQLQueue.dequeue_from_processing_queue) None Examples.fresh_install
    = Returned None w' None.
Proof.
  apply (unvalidated_job_goes_to_the_validation_worker
           MySQLDatabase.empty {[ 1 := Examples.leaf_classifier ]} MySQLQueue.empty
           MySQLStorage.empty 7 "leaf.jpg" [] 1 CLASSIFICATION false
           Examples.leaf_classifier);
    [reflexivity | reflexivity | reflexivity | compute_done | reflexivity | reflexivity].
Defined.

Section SeverityOrderInstance.
#[local] Set Warnings "-inexact-float".

Lemma ratio_to_severity_is_monotone_witness :
  (0.03 <=? 0.12)%float = true /\
  Segmentation._ratio_to_severity 0.03 <= Segmentation._ratio_to_severity 0.12.
Proof.
  split; [reflexivity|]. apply (ratio_to_severity_is_monotone 0.03 0.12). reflexivity.
Defined.

Lemma ratio_to_severity_on_tensor_is_monotone_witness :
  SFleb (Float32.div (Float32.of_int64 1) (Float32.of_int64 20))
        (Float32.div (Float32.of_int64 3) (Float32.of_int64 25)) = true /\
  Segmentation.Tensor._ratio_to_severity
    (Float32.div (Float32.of_int64 1) (Float32.of_int64 20))
  <= Segmentation.Tensor._ratio_to_severity
       (Float32.div (Float32.of_int64 3) (Float32.of_int64 25)).
Proof.
  split; [reflexivity|].
  apply (ratio_to_severity_on_tensor_is_monotone
           (Float32.div (Float32.of_int64 1) (Float32.of_int64 20))
           (Float32.div (Float32.of_int64 3) (Float32.of_int64 25))).
  reflexivity.
Defined.
End SeverityOrderInstance.

Lemma load_proper_models_loads_the_models_of_the_mode_witness :
  exists models : gmap Z (@Core.ModelWrapper unit),
    Main.load_proper_models (fun _ _ => Ok tt) (fun _ => mret []) MoreExamples.registry
                            Main.RunningMode.VALIDATION None tt
    = Returned models tt None /\
    (1 ∈ dom models <->
     exists m, (1, m) ∈ MoreExamples.registry /\
               mode_admits Main.RunningMode.VALIDATION (category m) = true) /\
    (2 ∈ dom models <->
     exists m, (2, m) ∈ MoreExamples.registry /\
               mode_admits Main.RunningMode.VALIDATION (category m) = true).
Proof.
  eexists. split; [reflexivity|].
  pose proof (proj2 (load_proper_models_loads_the_models_of_the_mode
                       (fun _ _ => Ok tt) (fun _ => mret []) MoreExamples.registry
                       Main.RunningMode.VALIDATION)
                    None tt _ tt None eq_refl) as [Hdom _].
  split; apply Hdom.
Defined.

Lemma enqueue_rejects_other_model_types_witness :
  MySQLQueue.enqueue_to_processing_queue
    10 3 (Validation COFFEE_LEAF_OCC) 100 [] (Some false) None (idle MySQLQueue.empty)
  = Raised (ValueError "Invalid model type: ValidationModelType.COFFEE_LEAF_OCC")
           (idle MySQLQueue.empty).
Proof.
  apply (enqueue_rejects_other_model_types
           COFFEE_LEAF_OCC 10 7 3 100 [] (Some false) None (idle MySQLQueue.empty)).
Defined.
